(** * kubectl_mcp_tool.utils.ssh_wrapper

    A shallow embedding of [src/kubectl_mcp_tool/utils/ssh_wrapper.py] and
    of the parts of the Python standard library it calls ([str.lower],
    [str.join], [str.replace], [shlex.quote], [shlex.split]), followed by
    the properties of the command wrapper.

    Python [str] values are modelled as [string]: sequences of 8-bit
    characters.  A character above 127 stands for (a byte of) a non-ASCII
    code point; every function below treats such characters the way Python
    treats non-ASCII code points ([re.ASCII] makes [\w] reject them,
    [shlex] gives them no special role, and no Unicode lower-casing yields
    a character of the words 'true', '1', 'yes'). *)

From Stdlib Require Import Ascii String List Bool Lia.
From stdpp Require Import base gmap strings list.

(** ** Exceptions and results *)

Inductive exn : Type :=
| ValueError (msg : string)
| AttributeError (name : string)
| TypeError (msg : string).

Inductive outcome (A : Type) : Type :=
| Ok (a : A)
| Raise (e : exn).
Arguments Ok {A} a.
Arguments Raise {A} e.

(** ** Python built-ins on [str] *)

Module Py.

(** Membership of a character in a string, as in [c in 'abc']. *)
Fixpoint char_in (c : ascii) (s : string) : bool :=
  match s with
  | EmptyString => false
  | String d s' => if Ascii.eqb c d then true else char_in c s'
  end.

Definition is_ascii_upper (c : ascii) : bool :=
  let n := nat_of_ascii c in Nat.leb 65 n && Nat.leb n 90.

Definition is_ascii_lower (c : ascii) : bool :=
  let n := nat_of_ascii c in Nat.leb 97 n && Nat.leb n 122.

Definition is_ascii_digit (c : ascii) : bool :=
  let n := nat_of_ascii c in Nat.leb 48 n && Nat.leb n 57.

Definition chr_lower (c : ascii) : ascii :=
  if is_ascii_upper c then ascii_of_nat (nat_of_ascii c + 32) else c.

(** [s.lower()] *)
Fixpoint lower (s : string) : string :=
  match s with
  | EmptyString => EmptyString
  | String c s' => String (chr_lower c) (lower s')
  end.

(** [sep.join(parts)] *)
Definition join (sep : string) (parts : list string) : string :=
  String.concat sep parts.

(** [s.replace(old, new)] for a one-character [old]. *)
Fixpoint replace (old : ascii) (new : string) (s : string) : string :=
  match s with
  | EmptyString => EmptyString
  | String c s' =>
      if Ascii.eqb c old then new +:+ replace old new s'
      else String c (replace old new s')
  end.

(** [x in (a, b, c)] on strings. *)
Definition in_tuple (x : string) (t : list string) : bool :=
  existsb (String.eqb x) t.

(** Truth value of a string: [bool(s)], false exactly for the empty one. *)
Definition truthy (s : string) : bool :=
  match s with
  | EmptyString => false
  | String _ _ => true
  end.

End Py.

(** ** The [shlex] module of the standard library *)

Module shlex.

Definition squote : ascii := "'"%char.
Definition dquote : ascii := "034"%char.
Definition backslash : ascii := "092"%char.

(** [_find_unsafe = re.compile(r'[^\w@%+=:,./-]', re.ASCII).search] *)
Definition safe_char (c : ascii) : bool :=
  Py.is_ascii_lower c || Py.is_ascii_upper c || Py.is_ascii_digit c
  || Ascii.eqb c "_"%char || Py.char_in c "@%+=:,./-".

Fixpoint _find_unsafe (s : string) : option ascii :=
  match s with
  | EmptyString => None
  | String c s' => if safe_char c then _find_unsafe s' else Some c
  end.

(** The replacement text of [quote]: a single quote, inside double
    quotes, between two single quotes. *)
Definition squote_escape : string :=
  String squote (String dquote (String squote (String dquote (String squote EmptyString)))).

(** [shlex.quote(s)] *)
Definition quote (s : string) : string :=
  if negb (Py.truthy s) then "''"
  else match _find_unsafe s with
       | None => s
       | Some _ => String squote (Py.replace squote squote_escape s +:+ "'")
       end.

(** *** The lexer, as configured by [shlex.split(s)]:
    [posix=True], [whitespace_split=True], [commenters=''],
    [punctuation_chars='']. *)

Definition whitespace : string :=
  String " "%char (String "009"%char (String "013"%char (String "010"%char EmptyString))).
Definition quotes : string := String squote (String dquote EmptyString).
Definition escape : string := String backslash EmptyString.
Definition escapedquotes : string := String dquote EmptyString.
(** [self.wordchars], its ASCII part.  POSIX mode adds accented Latin-1
    letters; with [whitespace_split] set, a character that is neither
    whitespace, quote nor escape joins the token whether or not it is a
    word character, so they need no entry here. *)
Definition wordchars : string :=
  "abcdfeghijklmnopqrstuvwxyzABCDEFGHIJKLMNOPQRSTUVWXYZ0123456789_".

(** [self.state]: [None], [' '], ['a'], a quote character or an escape
    character.  The punctuation state ['c'] is entered only on a
    character of [punctuation_chars], which is empty here. *)
Inductive lex_state : Type :=
| StEof
| StSpace
| StWord
| StQuote (q : ascii)
| StEscape (e : ascii).

Definition state_in_quotes (st : lex_state) : bool :=
  match st with StQuote _ => true | _ => false end.

Definition state_is_char (st : lex_state) (c : ascii) : bool :=
  match st with
  | StQuote q => Ascii.eqb c q
  | StEscape e => Ascii.eqb c e
  | StSpace => Ascii.eqb c " "%char
  | StWord => Ascii.eqb c "a"%char
  | StEof => false
  end.

(** What one call of [read_token] leaves behind: the raw token ([None]
    for end of input), the lexer state and the unread input. *)
Record token_result : Type := TokenResult {
  tr_token : option string;
  tr_state : lex_state;
  tr_rest : string;
}.

(** The code after the loop of [read_token]. *)
Definition emit (token : string) (quoted : bool) (state : lex_state)
    (rest : string) : outcome token_result :=
  Ok (TokenResult
        (if negb quoted && negb (Py.truthy token) then None else Some token)
        state rest).

Definition snoc (token : string) (c : ascii) : string :=
  token +:+ String c EmptyString.

(** The [while True] loop of [read_token]; every iteration reads one
    character of [instream] (or sees its end). *)
Fixpoint read_token_loop (state escapedstate : lex_state) (quoted : bool)
    (token : string) (instream : string) : outcome token_result :=
  match instream with
  | EmptyString =>
      match state with
      | StEof => emit "" quoted StEof ""
      | StSpace => emit token quoted StEof ""
      | StQuote _ => Raise (ValueError "No closing quotation")
      | StEscape _ => Raise (ValueError "No escaped character")
      | StWord => emit token quoted StEof ""
      end
  | String nextchar rest =>
      match state with
      | StEof => emit "" quoted StEof rest
      | StSpace =>
          if Py.char_in nextchar whitespace then
            if Py.truthy token || quoted then emit token quoted state rest
            else read_token_loop state escapedstate quoted token rest
          else if Py.char_in nextchar escape then
            read_token_loop (StEscape nextchar) StWord quoted token rest
          else if Py.char_in nextchar wordchars then
            read_token_loop StWord escapedstate quoted
              (String nextchar EmptyString) rest
          else if Py.char_in nextchar quotes then
            read_token_loop (StQuote nextchar) escapedstate quoted token rest
          else
            (* whitespace_split *)
            read_token_loop StWord escapedstate quoted
              (String nextchar EmptyString) rest
      | StQuote q =>
          if Ascii.eqb nextchar q then
            read_token_loop StWord escapedstate true token rest
          else if Py.char_in nextchar escape && Py.char_in q escapedquotes then
            read_token_loop (StEscape nextchar) state true token rest
          else
            read_token_loop state escapedstate true (snoc token nextchar) rest
      | StEscape e =>
          let token :=
            if state_in_quotes escapedstate
               && negb (Ascii.eqb nextchar e)
               && negb (state_is_char escapedstate nextchar)
            then snoc token e else token in
          read_token_loop escapedstate escapedstate quoted
            (snoc token nextchar) rest
      | StWord =>
          if Py.char_in nextchar whitespace then
            if Py.truthy token || quoted then emit token quoted StSpace rest
            else read_token_loop StSpace escapedstate quoted token rest
          else if Py.char_in nextchar quotes then
            read_token_loop (StQuote nextchar) escapedstate quoted token rest
          else if Py.char_in nextchar escape then
            read_token_loop (StEscape nextchar) StWord quoted token rest
          else
            (* in wordchars, in quotes, or whitespace_split *)
            read_token_loop state escapedstate quoted (snoc token nextchar) rest
      end
  end.

(** [read_token]: the loop from [quoted = False], [escapedstate = ' ']
    and an empty [self.token]. *)
Definition read_token (state : lex_state) (instream : string)
    : outcome token_result :=
  read_token_loop state StSpace false "" instream.

(** [list(lex)]: tokens until the first [None].  Each token takes at
    least one character of input, so [fuel] above the input's length is
    never used up; [None] stands for exhausted fuel only. *)
Fixpoint tokens (fuel : nat) (state : lex_state) (instream : string)
    : option (outcome (list string)) :=
  match fuel with
  | O => None
  | S fuel' =>
      match read_token state instream with
      | Raise e => Some (Raise e)
      | Ok r =>
          match tr_token r with
          | None => Some (Ok [])
          | Some tok =>
              match tokens fuel' (tr_state r) (tr_rest r) with
              | Some (Ok toks) => Some (Ok (tok :: toks))
              | other => other
              end
          end
      end
  end.

(** [shlex.split(s)] *)
Definition split (s : string) : option (outcome (list string)) :=
  tokens (S (String.length s)) StSpace s.

End shlex.

(** ** The wrapper class, as values *)

(** The attributes set by [SSHCommandWrapper.__init__]. *)
Record SSHCommandWrapper : Type := {
  ssh_enabled : bool;
  ssh_user : string;
  ssh_host : string;
  ssh_port : string;
  ssh_key : string;
}.

(** Values stored in the dictionary of [get_connection_info]. *)
Inductive value : Type :=
| VNone
| VBool (b : bool)
| VStr (s : string).

(** [os.environ.get(key, default)] *)
Definition environ_get (environ : gmap string string) (key default : string)
    : string :=
  match environ !! key with
  | Some v => v
  | None => default
  end.

(** The five assignments that open [__init__]. *)
Definition read_environ (environ : gmap string string) : SSHCommandWrapper :=
  {| ssh_enabled :=
       Py.in_tuple (Py.lower (environ_get environ "KUBECTL_SSH_ENABLED" "false"))
                   ["true"; "1"; "yes"];
     ssh_user := environ_get environ "KUBECTL_SSH_USER" "";
     ssh_host := environ_get environ "KUBECTL_SSH_HOST" "";
     ssh_port := environ_get environ "KUBECTL_SSH_PORT" "22";
     ssh_key := environ_get environ "KUBECTL_SSH_KEY" "" |}.

Section Wrapper.

(** [os.path.expanduser] and [os.path.exists] depend on the account
    database and the file system of the host; they are parameters. *)
Variable expanduser : string → string.
Variable path_exists : string → bool.

(** [wrap_command], on the values of the list and of the attributes.
    The [logger.debug] call does not take part in the result. *)
Definition wrap_command (self : SSHCommandWrapper) (cmd : list string)
    : list string :=
  if negb (ssh_enabled self) then cmd
  else
    let ssh_cmd := ["ssh"] in
    let ssh_cmd :=
      if Py.truthy (ssh_port self) && negb (String.eqb (ssh_port self) "22")
      then ssh_cmd ++ ["-p"; ssh_port self]
      else ssh_cmd in
    let ssh_cmd :=
      if Py.truthy (ssh_key self)
      then let expanded_key := expanduser (ssh_key self) in
           ssh_cmd ++ ["-i"; expanded_key]
      else ssh_cmd in
    let ssh_cmd :=
      ssh_cmd ++ ["-o"; "StrictHostKeyChecking=no";
                  "-o"; "UserKnownHostsFile=/dev/null";
                  "-o"; "LogLevel=ERROR"] in
    let ssh_cmd := ssh_cmd ++ [ssh_user self +:+ "@" +:+ ssh_host self] in
    let remote_command := Py.join " " (map shlex.quote cmd) in
    let ssh_cmd := ssh_cmd ++ [remote_command] in
    ssh_cmd.

(** [wrap_shell_command] *)
Definition wrap_shell_command (self : SSHCommandWrapper) (cmd : string)
    : string :=
  if negb (ssh_enabled self) then cmd
  else
    let ssh_prefix := "ssh" in
    let ssh_prefix :=
      if Py.truthy (ssh_port self) && negb (String.eqb (ssh_port self) "22")
      then ssh_prefix +:+ " -p " +:+ ssh_port self
      else ssh_prefix in
    let ssh_prefix :=
      if Py.truthy (ssh_key self)
      then let expanded_key := expanduser (ssh_key self) in
           ssh_prefix +:+ " -i " +:+ shlex.quote expanded_key
      else ssh_prefix in
    let ssh_prefix :=
      ssh_prefix +:+
      " -o StrictHostKeyChecking=no -o UserKnownHostsFile=/dev/null -o LogLevel=ERROR" in
    let wrapped_cmd :=
      ssh_prefix +:+ " " +:+ ssh_user self +:+ "@" +:+ ssh_host self
                 +:+ " " +:+ shlex.quote cmd in
    wrapped_cmd.

(** The [is_enabled] property. *)
Definition is_enabled (self : SSHCommandWrapper) : bool := ssh_enabled self.

(** [get_connection_info]: the dictionary literal, key by key. *)
Definition get_connection_info (self : SSHCommandWrapper)
    : gmap string value :=
  list_to_map
    [ ("enabled", VBool (ssh_enabled self));
      ("user", if ssh_enabled self then VStr (ssh_user self) else VNone);
      ("host", if ssh_enabled self then VStr (ssh_host self) else VNone);
      ("port", if ssh_enabled self then VStr (ssh_port self) else VNone);
      ("key", if ssh_enabled self then VStr (ssh_key self) else VNone) ].

End Wrapper.

(** ** The module as a running process: objects, globals, log *)

Module Store.

(** References to mutable objects. *)
Abbreviation loc := positive.

Inductive level : Type := DEBUG | INFO | WARNING.

(** The mutable objects the module handles: lists of strings and
    instances of [SSHCommandWrapper]. *)
Inductive object : Type :=
| ListObj (items : list string)
| WrapperObj (attrs : SSHCommandWrapper).

Record process : Type := Process {
  environ : gmap string string;          (* os.environ *)
  heap : gmap loc object;
  _ssh_wrapper_instance : option loc;    (* the module global *)
  log : list (level * string);           (* calls received by [logger] *)
}.

(** Computations that read and write the process and may raise. *)
Definition M (A : Type) : Type := process → outcome A * process.

#[global] Instance M_ret : MRet M := λ A a σ, (Ok a, σ).
#[global] Instance M_bind : MBind M := λ A B f m σ,
  match m σ with
  | (Ok a, σ') => f a σ'
  | (Raise e, σ') => (Raise e, σ')
  end.

Definition raise {A : Type} (e : exn) : M A := λ σ, (Raise e, σ).

Definition get_environ : M (gmap string string) := λ σ, (Ok (environ σ), σ).

Definition logger (lvl : level) (msg : string) : M unit := λ σ,
  (Ok (), Process (environ σ) (heap σ) (_ssh_wrapper_instance σ)
                  (log σ ++ [(lvl, msg)])).

Definition load_global : M (option loc) := λ σ,
  (Ok (_ssh_wrapper_instance σ), σ).

Definition store_global (v : option loc) : M unit := λ σ,
  (Ok (), Process (environ σ) (heap σ) v (log σ)).

(** A new object gets a reference no object of the heap has. *)
Definition alloc (o : object) : M loc := λ σ,
  let r := fresh (dom (heap σ)) in
  (Ok r, Process (environ σ) (<[r := o]> (heap σ))
                 (_ssh_wrapper_instance σ) (log σ)).

(** Reading an attribute of [self]. *)
Definition getattr {A : Type} (self : loc) (name : string)
    (field : SSHCommandWrapper → A) : M A := λ σ,
  match heap σ !! self with
  | Some (WrapperObj w) => (Ok (field w), σ)
  | _ => (Raise (AttributeError name), σ)
  end.

(** Reading the items of a list object (iterating over it). *)
Definition list_items (r : loc) : M (list string) := λ σ,
  match heap σ !! r with
  | Some (ListObj l) => (Ok l, σ)
  | _ => (Raise (TypeError "object is not iterable"), σ)
  end.

(** [r.extend(items)], in place. *)
Definition list_extend (r : loc) (items : list string) : M unit := λ σ,
  match heap σ !! r with
  | Some (ListObj l) =>
      (Ok (), Process (environ σ) (<[r := ListObj (l ++ items)]> (heap σ))
                      (_ssh_wrapper_instance σ) (log σ))
  | _ => (Raise (AttributeError "extend"), σ)
  end.

(** [r.append(item)], in place. *)
Definition list_append (r : loc) (item : string) : M unit := λ σ,
  match heap σ !! r with
  | Some (ListObj l) =>
      (Ok (), Process (environ σ) (<[r := ListObj (l ++ [item])]> (heap σ))
                      (_ssh_wrapper_instance σ) (log σ))
  | _ => (Raise (AttributeError "append"), σ)
  end.

(** [os.environ[key] = v] and [del os.environ[key]], done by the
    surroundings of the module between its calls. *)
Definition putenv (key v : string) : M unit := λ σ,
  (Ok (), Process (<[key := v]> (environ σ)) (heap σ)
                  (_ssh_wrapper_instance σ) (log σ)).

Definition unsetenv (key : string) : M unit := λ σ,
  (Ok (), Process (delete key (environ σ)) (heap σ)
                  (_ssh_wrapper_instance σ) (log σ)).

Section Methods.

Variable expanduser : string → string.
Variable path_exists : string → bool.

(** [_validate_config], on the attributes set so far. *)
Definition _validate_config (self : SSHCommandWrapper) : M unit :=
  if negb (Py.truthy (ssh_user self)) then
    raise (ValueError
      "KUBECTL_SSH_USER environment variable is required when SSH mode is enabled")
  else if negb (Py.truthy (ssh_host self)) then
    raise (ValueError
      "KUBECTL_SSH_HOST environment variable is required when SSH mode is enabled")
  else if Py.truthy (ssh_key self)
          && negb (path_exists (expanduser (ssh_key self))) then
    logger WARNING ("SSH key file not found: " +:+ ssh_key self)
  else mret ().

(** [__init__]: the attributes of the instance under construction,
    or the exception that abandons it. *)
Definition __init__ : M SSHCommandWrapper :=
  environ ← get_environ;
  let self := read_environ environ in
  (if ssh_enabled self then
     _validate_config self;;
     logger INFO ("SSH mode enabled: " +:+ ssh_user self +:+ "@"
                    +:+ ssh_host self +:+ ":" +:+ ssh_port self)
   else
     logger DEBUG "SSH mode disabled - executing commands locally");;
  mret self.

(** The call [SSHCommandWrapper()]. *)
Definition new : M loc :=
  self ← __init__;
  alloc (WrapperObj self).

(** [wrap_command] on references: [self] and [cmd] live in the heap. *)
Definition wrap_command (self cmd : loc) : M loc :=
  enabled ← getattr self "ssh_enabled" ssh_enabled;
  if negb enabled then mret cmd
  else
    ssh_cmd ← alloc (ListObj ["ssh"]);
    port ← getattr self "ssh_port" ssh_port;
    (if Py.truthy port && negb (String.eqb port "22")
     then list_extend ssh_cmd ["-p"; port]
     else mret ());;
    key ← getattr self "ssh_key" ssh_key;
    (if Py.truthy key
     then let expanded_key := expanduser key in
          list_extend ssh_cmd ["-i"; expanded_key]
     else mret ());;
    list_extend ssh_cmd ["-o"; "StrictHostKeyChecking=no";
                         "-o"; "UserKnownHostsFile=/dev/null";
                         "-o"; "LogLevel=ERROR"];;
    user ← getattr self "ssh_user" ssh_user;
    host ← getattr self "ssh_host" ssh_host;
    list_append ssh_cmd (user +:+ "@" +:+ host);;
    args ← list_items cmd;
    let remote_command := Py.join " " (map shlex.quote args) in
    list_append ssh_cmd remote_command;;
    parts ← list_items ssh_cmd;
    logger DEBUG ("Wrapped command: " +:+ Py.join " " parts);;
    mret ssh_cmd.

(** [wrap_shell_command]: strings are immutable values. *)
Definition wrap_shell_command (self : loc) (cmd : string) : M string :=
  enabled ← getattr self "ssh_enabled" ssh_enabled;
  if negb enabled then mret cmd
  else
    let ssh_prefix := "ssh" in
    port ← getattr self "ssh_port" ssh_port;
    let ssh_prefix :=
      if Py.truthy port && negb (String.eqb port "22")
      then ssh_prefix +:+ " -p " +:+ port
      else ssh_prefix in
    key ← getattr self "ssh_key" ssh_key;
    let ssh_prefix :=
      if Py.truthy key
      then let expanded_key := expanduser key in
           ssh_prefix +:+ " -i " +:+ shlex.quote expanded_key
      else ssh_prefix in
    let ssh_prefix :=
      ssh_prefix +:+
      " -o StrictHostKeyChecking=no -o UserKnownHostsFile=/dev/null -o LogLevel=ERROR" in
    user ← getattr self "ssh_user" ssh_user;
    host ← getattr self "ssh_host" ssh_host;
    let wrapped_cmd :=
      ssh_prefix +:+ " " +:+ user +:+ "@" +:+ host
                 +:+ " " +:+ shlex.quote cmd in
    logger DEBUG ("Wrapped shell command: " +:+ wrapped_cmd);;
    mret wrapped_cmd.

(** [get_ssh_wrapper] *)
Definition get_ssh_wrapper : M loc :=
  instance ← load_global;
  match instance with
  | None =>
      r ← new;
      store_global (Some r);;
      mret r
  | Some r => mret r
  end.

(** [reset_ssh_wrapper] *)
Definition reset_ssh_wrapper : M unit :=
  store_global None.

(** What happens to the accessor over time: calls of the two
    functions, interleaved with changes of the environment. *)
Inductive op : Type :=
| Get
| Reset
| PutEnv (key v : string)
| UnsetEnv (key : string).

Definition is_reset (o : op) : bool :=
  match o with Reset => true | _ => false end.

(** Runs the operations in order; collects what each [Get] gave. *)
Fixpoint run (ops : list op) (σ : process)
    : list (outcome loc) * process :=
  match ops with
  | [] => ([], σ)
  | Get :: ops' =>
      let '(res, σ') := get_ssh_wrapper σ in
      let '(rs, σ'') := run ops' σ' in
      (res :: rs, σ'')
  | Reset :: ops' => run ops' (reset_ssh_wrapper σ).2
  | PutEnv k v :: ops' => run ops' (putenv k v σ).2
  | UnsetEnv k :: ops' => run ops' (unsetenv k σ).2
  end.

End Methods.

End Store.

(** ** Notions used in the statements *)

(** Two characters that differ at most in the case of an ASCII letter. *)
Inductive char_eq_nocase : ascii → ascii → Prop :=
| nocase_same c : char_eq_nocase c c
| nocase_upper_lower c :
    Py.is_ascii_upper c = true →
    char_eq_nocase c (ascii_of_nat (nat_of_ascii c + 32))
| nocase_lower_upper c :
    Py.is_ascii_upper c = true →
    char_eq_nocase (ascii_of_nat (nat_of_ascii c + 32)) c.

(** Case-insensitive equality of strings. *)
Inductive str_eq_nocase : string → string → Prop :=
| nocase_nil : str_eq_nocase "" ""
| nocase_cons c d s t :
    char_eq_nocase c d → str_eq_nocase s t →
    str_eq_nocase (String c s) (String d t).

(** The flag pair [-p port] among the elements of an argument list. *)
Definition port_flag_pair (port : string) (out : list string) : Prop :=
  ∃ front back, out = front ++ ["-p"; port] ++ back.

(** The flag [-p port] right after the program name of a command line. *)
Definition port_flag_text (port : string) (out : string) : Prop :=
  ∃ back, out = "ssh -p " +:+ port +:+ back.

(** The port is present and is not the default. *)
Definition explicit_port (self : SSHCommandWrapper) : Prop :=
  ssh_port self ≠ "" ∧ ssh_port self ≠ "22".

(** No capital ASCII letter occurs in the string. *)
Fixpoint no_upper (s : string) : bool :=
  match s with
  | EmptyString => true
  | String c s' => negb (Py.is_ascii_upper c) && no_upper s'
  end.

(** The state while [wrap_command] builds its list at [r]. *)
Definition building (σ : Store.process) (r : positive) (acc : list string)
    (lg : list (Store.level * string)) : Store.process :=
  Store.Process (Store.environ σ) (<[r := Store.ListObj acc]> (Store.heap σ))
                (Store._ssh_wrapper_instance σ) lg.

(** ** Sample inputs *)

(** [os.path.expanduser] on a host whose HOME is [/home/alice] and that
    knows no other account. *)
Definition expanduser_alice (path : string) : string :=
  match path with
  | String "~"%char EmptyString => "/home/alice"
  | String "~"%char (String "/"%char rest) => "/home/alice/" +:+ rest
  | _ => path
  end.

(** A file system that holds every path asked for. *)
Definition every_path_exists (path : string) : bool := true.

Definition alice : SSHCommandWrapper :=
  {| ssh_enabled := true; ssh_user := "alice"; ssh_host := "10.0.0.5";
     ssh_port := "22"; ssh_key := "" |}.

Definition alice_022 : SSHCommandWrapper :=
  {| ssh_enabled := true; ssh_user := "alice"; ssh_host := "10.0.0.5";
     ssh_port := "022"; ssh_key := "~/.ssh/id_rsa" |}.

Definition alice_local : SSHCommandWrapper :=
  {| ssh_enabled := false; ssh_user := "alice"; ssh_host := "10.0.0.5";
     ssh_port := "2222"; ssh_key := "~/.ssh/id_rsa" |}.

Definition sample_environ : gmap string string :=
  <["KUBECTL_SSH_ENABLED" := "YeS"]>
    (<["KUBECTL_SSH_USER" := "alice"]>
       (<["KUBECTL_SSH_HOST" := "10.0.0.5"]> ∅)).

(** A process that has not called the accessor yet. *)
Definition sample_process : Store.process :=
  Store.Process sample_environ ∅ None [].

(** A process whose heap holds an instance at 1 and a command at 2. *)
Definition sample_heap_process : Store.process :=
  Store.Process sample_environ
    (<[1%positive := Store.WrapperObj alice_022]>
       (<[2%positive := Store.ListObj ["kubectl"; "get"; "pods"]]> ∅))
    (Some 1%positive) [].

(** ** Notions used for the whole module *)

(** A character with no role for the lexer: neither whitespace, quote
    nor escape. *)
Definition plain_char (c : ascii) : bool :=
  negb (Py.char_in c shlex.whitespace)
  && negb (Py.char_in c shlex.quotes)
  && negb (Py.char_in c shlex.escape).

Fixpoint plain (s : string) : bool :=
  match s with
  | EmptyString => true
  | String c s' => plain_char c && plain s'
  end.

(** [piece], followed by a blank or by the end of the input, is read by
    the lexer as the one token [word]. *)
Definition reads_as (piece word : string) : Prop :=
  (∀ rest, shlex.read_token shlex.StSpace (piece +:+ " " +:+ rest)
           = Ok (shlex.TokenResult (Some word) shlex.StSpace rest))
  ∧ shlex.read_token shlex.StSpace piece
    = Ok (shlex.TokenResult (Some word) shlex.StEof "").

(** The arguments [wrap_command] puts before the remote command. *)
Definition ssh_argv (expanduser : string → string) (self : SSHCommandWrapper)
    : list string :=
  ["ssh"]
  ++ (if Py.truthy (ssh_port self) && negb (String.eqb (ssh_port self) "22")
      then ["-p"; ssh_port self] else [])
  ++ (if Py.truthy (ssh_key self)
      then ["-i"; expanduser (ssh_key self)] else [])
  ++ ["-o"; "StrictHostKeyChecking=no";
      "-o"; "UserKnownHostsFile=/dev/null";
      "-o"; "LogLevel=ERROR"]
  ++ [ssh_user self +:+ "@" +:+ ssh_host self].

(** The invariant of a configuration: remote mode has a user and a host. *)
Definition valid_config (w : SSHCommandWrapper) : Prop :=
  ssh_enabled w = true → ssh_user w ≠ "" ∧ ssh_host w ≠ "".

(** The module global, when set, refers to an instance of the heap that
    satisfies the invariant. *)
Definition cached_valid (σ : Store.process) : Prop :=
  ∀ r, Store._ssh_wrapper_instance σ = Some r →
       ∃ w, Store.heap σ !! r = Some (Store.WrapperObj w) ∧ valid_config w.

(** A process whose environment asks for remote mode without a user. *)
Definition broken_process : Store.process :=
  Store.Process (<["KUBECTL_SSH_ENABLED" := "true"]> ∅)
    (<[2%positive := Store.ListObj ["kubectl"; "get"; "pods"]]> ∅) None [].




(** [os.path.expanduser] once HOME is [/elsewhere]. *)
Definition expanduser_elsewhere (path : string) : string :=
  match path with
  | String "~"%char EmptyString => "/elsewhere"
  | String "~"%char (String "/"%char rest) => "/elsewhere/" +:+ rest
  | _ => path
  end.

(** ** Strings *)

Lemma str_app_cons c s r : String c s +:+ r = String c (s +:+ r).
Proof. reflexivity. Qed.

Lemma str_app_nil_l r : "" +:+ r = r.
Proof. reflexivity. Qed.

Lemma str_app_nil_r s : s +:+ "" = s.
Proof. induction s as [|c s IH]; [done|]. by rewrite str_app_cons, IH. Qed.

Lemma str_app_assoc s r t : (s +:+ r) +:+ t = s +:+ (r +:+ t).
Proof.
  induction s as [|c s IH]; [done|]. by rewrite !str_app_cons, IH.
Qed.

Lemma str_app_length s r :
  String.length (s +:+ r) = String.length s + String.length r.
Proof.
  induction s as [|c s IH]; [done|]. rewrite str_app_cons. simpl. by rewrite IH.
Qed.

Lemma snoc_app tok c s : shlex.snoc tok c +:+ s = tok +:+ String c s.
Proof. unfold shlex.snoc. by rewrite str_app_assoc. Qed.

(** ** The lexer reads back what [quote] writes *)

(** A safe character is neither whitespace, quote nor escape. *)
Lemma safe_char_plain c :
  shlex.safe_char c = true →
  Py.char_in c shlex.whitespace = false
  ∧ Py.char_in c shlex.quotes = false
  ∧ Py.char_in c shlex.escape = false.
Proof.
  destruct c as [[] [] [] [] [] [] [] []]; vm_compute; intros H;
    first [discriminate H | done].
Qed.

(** In word state, a run of safe characters joins the token. *)
Lemma read_word_run s : ∀ esc quoted tok rest,
  shlex._find_unsafe s = None →
  shlex.read_token_loop shlex.StWord esc quoted tok (s +:+ rest)
  = shlex.read_token_loop shlex.StWord esc quoted (tok +:+ s) rest.
Proof.
  induction s as [|c s IH]; intros esc quoted tok rest Hsafe.
  - by rewrite str_app_nil_r.
  - simpl in Hsafe. destruct (shlex.safe_char c) eqn:Hc; [|done].
    destruct (safe_char_plain c Hc) as (Hw & Hq & He).
    rewrite str_app_cons. cbn [shlex.read_token_loop].
    rewrite Hw, Hq, He. rewrite IH by done. by rewrite snoc_app.
Qed.

(** Inside single quotes, the escaped text up to the closing quote is
    read back character for character. *)
Lemma read_squoted s : ∀ esc quoted tok rest,
  shlex.read_token_loop (shlex.StQuote shlex.squote) esc quoted tok
    (Py.replace shlex.squote shlex.squote_escape s +:+ String shlex.squote rest)
  = shlex.read_token_loop shlex.StWord esc true (tok +:+ s) rest.
Proof.
  induction s as [|c s IH]; intros esc quoted tok rest.
  - rewrite str_app_nil_r. cbn. done.
  - cbn [Py.replace]. destruct (Ascii.eqb c shlex.squote) eqn:Hc.
    + apply Ascii.eqb_eq in Hc as ->.
      rewrite str_app_assoc. unfold shlex.squote_escape at 1.
      rewrite !str_app_cons, str_app_nil_l.
      cbn [shlex.read_token_loop]. 
      change (Ascii.eqb shlex.squote shlex.squote) with true. cbv iota.
      change (Py.char_in shlex.dquote shlex.whitespace) with false.
      change (Py.char_in shlex.dquote shlex.quotes) with true. cbv iota.
      change (Ascii.eqb shlex.squote shlex.dquote) with false.
      change (Py.char_in shlex.squote shlex.escape) with false.
      cbv iota. cbn [andb].
      change (Ascii.eqb shlex.dquote shlex.dquote) with true. cbv iota.
      change (Py.char_in shlex.squote shlex.whitespace) with false.
      change (Py.char_in shlex.squote shlex.quotes) with true. cbv iota.
      rewrite IH. by rewrite snoc_app.
    + rewrite str_app_cons. cbn [shlex.read_token_loop]. rewrite Hc.
      change (Py.char_in shlex.squote shlex.escapedquotes) with false.
      rewrite andb_false_r. rewrite IH. by rewrite snoc_app.
Qed.

(** At the end of a word: the end of input, or a blank, emits the token. *)
Lemma read_word_end esc quoted tok :
  Py.truthy tok || quoted = true →
  shlex.read_token_loop shlex.StWord esc quoted tok ""
  = Ok (shlex.TokenResult (Some tok) shlex.StEof "").
Proof.
  intros H. cbn. unfold shlex.emit.
  destruct quoted, (Py.truthy tok); simpl in *; done.
Qed.

Lemma read_word_blank esc quoted tok rest :
  Py.truthy tok || quoted = true →
  shlex.read_token_loop shlex.StWord esc quoted tok (String " " rest)
  = Ok (shlex.TokenResult (Some tok) shlex.StSpace rest).
Proof.
  intros H. cbn [shlex.read_token_loop].
  change (Py.char_in " " shlex.whitespace) with true. cbv iota.
  rewrite H. unfold shlex.emit.
  destruct quoted, (Py.truthy tok); simpl in *; done.
Qed.

(** From the blank state, a quoted argument brings the lexer to the
    word state with the argument as its token. *)
Lemma read_quote_arg a rest :
  ∃ quoted,
    Py.truthy a || quoted = true
    ∧ shlex.read_token shlex.StSpace (shlex.quote a +:+ rest)
      = shlex.read_token_loop shlex.StWord shlex.StSpace quoted a rest.
Proof.
  unfold shlex.read_token, shlex.quote.
  destruct a as [|c s]; cbn [Py.truthy negb].
  - exists true. split; [done|]. reflexivity.
  - destruct (shlex._find_unsafe (String c s)) as [u|] eqn:Hsafe.
    + exists true. split; [done|].
      rewrite str_app_cons. cbn [shlex.read_token_loop].
      change (Py.char_in shlex.squote shlex.whitespace) with false.
      change (Py.char_in shlex.squote shlex.escape) with false.
      change (Py.char_in shlex.squote shlex.wordchars) with false.
      change (Py.char_in shlex.squote shlex.quotes) with true. cbv iota.
      rewrite str_app_assoc.
      change ("'" +:+ rest) with (String shlex.squote rest).
      by rewrite read_squoted.
    + exists false. split; [done|].
      simpl in Hsafe. destruct (shlex.safe_char c) eqn:Hc; [|done].
      destruct (safe_char_plain c Hc) as (Hw & Hq & He).
      rewrite str_app_cons. cbn [shlex.read_token_loop].
      rewrite Hw, He, Hq.
      assert (shlex.read_token_loop shlex.StWord shlex.StSpace false
                (String c "") (s +:+ rest)
              = shlex.read_token_loop shlex.StWord shlex.StSpace false
                (String c s) rest) as Hrun
        by (by rewrite read_word_run).
      by destruct (Py.char_in c shlex.wordchars).
Qed.

Lemma read_token_quote_last a :
  shlex.read_token shlex.StSpace (shlex.quote a)
  = Ok (shlex.TokenResult (Some a) shlex.StEof "").
Proof.
  destruct (read_quote_arg a "") as (quoted & Hq & Hread).
  rewrite str_app_nil_r in Hread. rewrite Hread. by apply read_word_end.
Qed.

Lemma read_token_quote_blank a rest :
  shlex.read_token shlex.StSpace (shlex.quote a +:+ " " +:+ rest)
  = Ok (shlex.TokenResult (Some a) shlex.StSpace rest).
Proof.
  destruct (read_quote_arg a (" " +:+ rest)) as (quoted & Hq & Hread).
  rewrite Hread. by apply read_word_blank.
Qed.

(** The tokens of a joined command line are its arguments. *)
Lemma tokens_join cmd : ∀ fuel,
  length cmd < fuel →
  shlex.tokens fuel shlex.StSpace (Py.join " " (map shlex.quote cmd))
  = Some (Ok cmd).
Proof.
  induction cmd as [|a cmd IH]; intros fuel Hfuel.
  - destruct fuel as [|fuel]; [lia|]. reflexivity.
  - destruct fuel as [|fuel]; [simpl in Hfuel; lia|].
    destruct cmd as [|b cmd].
    + cbn [map Py.join String.concat shlex.tokens].
      rewrite read_token_quote_last. cbn [shlex.tr_token shlex.tr_state shlex.tr_rest].
      destruct fuel as [|fuel]; [simpl in Hfuel; lia|]. reflexivity.
    + change (Py.join " " (map shlex.quote (a :: b :: cmd)))
        with (shlex.quote a +:+ " " +:+ Py.join " " (map shlex.quote (b :: cmd))).
      cbn [shlex.tokens]. rewrite read_token_quote_blank.
      cbn [shlex.tr_token shlex.tr_state shlex.tr_rest].
      rewrite IH by (simpl in *; lia). done.
Qed.

Lemma quote_length a : 0 < String.length (shlex.quote a).
Proof.
  unfold shlex.quote. destruct a as [|c s]; cbn [Py.truthy negb]; [simpl; lia|].
  destruct (shlex._find_unsafe _); simpl; lia.
Qed.

Lemma join_quote_length cmd :
  length cmd ≤ String.length (Py.join " " (map shlex.quote cmd)).
Proof.
  induction cmd as [|a cmd IH]; [simpl; lia|].
  destruct cmd as [|b cmd].
  - pose proof (quote_length a). simpl in *. lia.
  - change (Py.join " " (map shlex.quote (a :: b :: cmd)))
      with (shlex.quote a +:+ " " +:+ Py.join " " (map shlex.quote (b :: cmd))).
    rewrite !str_app_length. pose proof (quote_length a).
    cbn [length] in *. simpl String.length at 2. lia.
Qed.

(** [shlex.split] undoes quoting and joining. *)
Lemma split_join_quote cmd :
  shlex.split (Py.join " " (map shlex.quote cmd)) = Some (Ok cmd).
Proof.
  unfold shlex.split. apply tokens_join.
  pose proof (join_quote_length cmd). lia.
Qed.

(** [read_token] uses up input: the fuel of [split] always suffices. *)
Lemma read_token_loop_rest instream : ∀ st esc quoted tok r,
  shlex.read_token_loop st esc quoted tok instream = Ok r →
  String.length (shlex.tr_rest r) ≤ Nat.pred (String.length instream).
Proof.
  induction instream as [|c s IH]; intros st esc quoted tok r H.
  - destruct st; cbn in H; unfold shlex.emit in H; simplify_eq; simpl; lia.
  - cbn [String.length Nat.pred].
    assert (∀ st esc quoted tok,
      shlex.read_token_loop st esc quoted tok s = Ok r →
      String.length (shlex.tr_rest r) ≤ String.length s) as IH'.
    { intros ???? H'. apply IH in H'. lia. }
    destruct st; cbn [shlex.read_token_loop] in H; unfold shlex.emit in H;
      repeat (match type of H with
              | context [if ?b then _ else _] => destruct b
              end);
      try (simplify_eq; simpl; lia); eauto.
Qed.

Lemma read_token_eof st r :
  shlex.read_token st "" = Ok r → shlex.tr_token r = None.
Proof.
  unfold shlex.read_token.
  destruct st; cbn; unfold shlex.emit; intros; simplify_eq; done.
Qed.

Lemma tokens_total fuel : ∀ st s,
  String.length s < fuel → shlex.tokens fuel st s ≠ None.
Proof.
  induction fuel as [|fuel IH]; intros st s Hlen; [lia|].
  cbn [shlex.tokens].
  destruct (shlex.read_token st s) as [r|e] eqn:Hr; [|done].
  destruct (shlex.tr_token r) as [tok|] eqn:Htok; [|done].
  assert (String.length (shlex.tr_rest r) < fuel) as Hrest.
  { destruct s as [|c s].
    - apply read_token_eof in Hr. congruence.
    - apply read_token_loop_rest in Hr. simpl in *. lia. }
  specialize (IH (shlex.tr_state r) (shlex.tr_rest r) Hrest).
  destruct (shlex.tokens fuel _ _) as [[?|?]|]; done.
Qed.

Lemma split_total s : shlex.split s ≠ None.
Proof. apply tokens_total. lia. Qed.

(** ** Case-insensitive comparison *)

Lemma truthy_true s : Py.truthy s = true ↔ s ≠ "".
Proof. destruct s; simpl; split; try done. Qed.

Lemma truthy_false s : Py.truthy s = false ↔ s = "".
Proof. destruct s; simpl; split; try done. Qed.

Lemma chr_lower_nocase c : char_eq_nocase c (Py.chr_lower c).
Proof.
  unfold Py.chr_lower. destruct (Py.is_ascii_upper c) eqn:Hc; by constructor.
Qed.

Lemma nocase_chr_lower c d :
  Py.is_ascii_upper d = false → char_eq_nocase c d → Py.chr_lower c = d.
Proof.
  intros Hd H. unfold Py.chr_lower. destruct H as [c|c Hc|c Hc].
  - by rewrite Hd.
  - by rewrite Hc.
  - congruence.
Qed.

(** Lower-casing compares equal to a word without capitals exactly when
    the string equals the word up to case. *)
Lemma lower_eq_nocase t : ∀ s,
  no_upper t = true → (Py.lower s = t ↔ str_eq_nocase s t).
Proof.
  induction t as [|d t IH]; intros s Ht.
  - destruct s; simpl; split; intros H; try done; [constructor | inversion H].
  - simpl in Ht. apply andb_true_iff in Ht as [Hd Ht].
    apply negb_true_iff in Hd.
    destruct s as [|c s]; simpl.
    + split; intros H; [done | inversion H].
    + split.
      * intros [= <- Hs]. constructor; [apply chr_lower_nocase | by apply IH].
      * intros H. inversion H; subst. f_equal; [by apply nocase_chr_lower | by apply IH].
Qed.

Lemma in_tuple_spec x t : Py.in_tuple x t = true ↔ x ∈ t.
Proof.
  unfold Py.in_tuple. rewrite existsb_exists. split.
  - intros (y & Hy & Heq). apply String.eqb_eq in Heq as ->. by apply list_elem_of_In.
  - intros H. exists x. split; [by apply list_elem_of_In | apply String.eqb_refl].
Qed.

Lemma read_environ_enabled (environ : gmap string string) :
  ssh_enabled (read_environ environ) = true ↔
  ∃ v, environ !! "KUBECTL_SSH_ENABLED" = Some v
       ∧ (str_eq_nocase v "true" ∨ str_eq_nocase v "1" ∨ str_eq_nocase v "yes").
Proof.
  unfold read_environ, environ_get. cbn [ssh_enabled].
  rewrite in_tuple_spec. rewrite !elem_of_cons, elem_of_nil.
  rewrite !lower_eq_nocase by done.
  destruct (environ !! "KUBECTL_SSH_ENABLED") as [v|].
  - split; [intros H; exists v; tauto | intros (v' & [= <-] & H); tauto].
  - split; [|by intros (v' & ? & _)].
    intros [H|[H|[H|[]]]]; inversion H; subst;
      match goal with
      | H' : char_eq_nocase _ _ |- _ => inversion H' as [c|c Hc|c Hc]
      end; subst; try discriminate Hc.
Qed.

(** ** The command transformer *)

Section Transformer.

Variable expanduser : string → string.

Lemma port_test_spec self :
  Py.truthy (ssh_port self) && negb (String.eqb (ssh_port self) "22") = true
  ↔ explicit_port self.
Proof.
  unfold explicit_port.
  rewrite andb_true_iff, negb_true_iff, truthy_true, String.eqb_neq. done.
Qed.

Lemma port_test_false self :
  Py.truthy (ssh_port self) && negb (String.eqb (ssh_port self) "22") = false
  → ssh_port self = "" ∨ ssh_port self = "22".
Proof.
  rewrite andb_false_iff, negb_false_iff, truthy_false, String.eqb_eq. done.
Qed.

Lemma destination_not_flag u h : u +:+ "@" +:+ h ≠ "-p".
Proof.
  destruct u as [|c [|c' u]]; cbv [String.append]; intros H; simplify_eq.
  destruct u; discriminate.
Qed.

(** The four cases of the two conditional flags, each decided the way
    the statement spells the conditions. *)
Ltac flag_cases self :=
  let Hport := fresh "Hport" in
  let Hkey := fresh "Hkey" in
  destruct (Py.truthy (ssh_port self) && negb (String.eqb (ssh_port self) "22"))
    eqn:Hport;
  [ apply port_test_spec in Hport; rewrite decide_True by done
  | assert (¬ explicit_port self)
      by (rewrite <- port_test_spec; congruence);
    rewrite decide_False by done ];
  (destruct (Py.truthy (ssh_key self)) eqn:Hkey;
   [ apply truthy_true in Hkey; by rewrite decide_True
   | apply truthy_false in Hkey; by rewrite decide_False by (by intros []) ]).

(** C1.  In remote mode [wrap_command] returns exactly: the program name
    [ssh]; the pair [-p port] only when the port is non-empty and is not
    ['22']; the pair [-i key] with the home-expanded key path only when a
    key path is set; the three fixed option pairs in their order; the
    token [user@host]; and last the arguments of [cmd], each shell-quoted,
    joined by single spaces into one string. *)
Theorem wrap_command_remote (self : SSHCommandWrapper) (cmd : list string) :
  ssh_enabled self = true →
  wrap_command expanduser self cmd =
    ["ssh"]
    ++ (if decide (ssh_port self ≠ "" ∧ ssh_port self ≠ "22")
        then ["-p"; ssh_port self] else [])
    ++ (if decide (ssh_key self ≠ "")
        then ["-i"; expanduser (ssh_key self)] else [])
    ++ ["-o"; "StrictHostKeyChecking=no";
        "-o"; "UserKnownHostsFile=/dev/null";
        "-o"; "LogLevel=ERROR"]
    ++ [ssh_user self +:+ "@" +:+ ssh_host self]
    ++ [Py.join " " (map shlex.quote cmd)].
Proof.
  intros Hen. unfold wrap_command. rewrite Hen. cbn [negb].
  flag_cases self.
Qed.

(** C2.  In local mode [wrap_command] returns [cmd] as it is and
    [wrap_shell_command] returns [s] as it is, whatever the user, host,
    port and key are. *)
Theorem local_mode_identity (self : SSHCommandWrapper) (cmd : list string)
    (s : string) :
  ssh_enabled self = false →
  wrap_command expanduser self cmd = cmd
  ∧ wrap_shell_command expanduser self s = s.
Proof.
  intros Hen. unfold wrap_command, wrap_shell_command. by rewrite Hen.
Qed.

Lemma wrap_command_port_flag self cmd :
  ssh_enabled self = true →
  port_flag_pair (ssh_port self) (wrap_command expanduser self cmd)
  ↔ explicit_port self.
Proof.
  intros Hen. unfold wrap_command. rewrite Hen. cbn [negb].
  destruct (Py.truthy (ssh_port self) && negb (String.eqb (ssh_port self) "22"))
    eqn:Hport.
  - split; [by intros _; apply port_test_spec|]. intros _.
    exists ["ssh"]. destruct (Py.truthy (ssh_key self)); eexists; reflexivity.
  - split; [|by intros ?%port_test_spec; congruence].
    intros (front & back & Heq). exfalso.
    pose proof (destination_not_flag (ssh_user self) (ssh_host self)) as Hdest.
    apply port_test_false in Hport.
    destruct (Py.truthy (ssh_key self)); cbn [app] in Heq;
      do 12 (try (destruct front as [|? front]; cbn [app] in Heq;
                  [ injection Heq as ?; subst; try discriminate;
                    destruct Hport as [Hp|Hp]; rewrite Hp in *; try discriminate;
                    congruence
                  | injection Heq as ? Heq; subst ])).
    all: destruct front; discriminate.
Qed.
Lemma wrap_shell_command_port_flag self s :
  ssh_enabled self = true →
  port_flag_text (ssh_port self) (wrap_shell_command expanduser self s)
  ↔ explicit_port self.
Proof.
  intros Hen. unfold wrap_shell_command. rewrite Hen. cbn [negb].
  destruct (Py.truthy (ssh_port self) && negb (String.eqb (ssh_port self) "22"))
    eqn:Hport.
  - split; [by intros _; apply port_test_spec|]. intros _.
    unfold port_flag_text.
    change ("ssh" +:+ " -p " +:+ ssh_port self)
      with ("ssh -p " +:+ ssh_port self).
    destruct (Py.truthy (ssh_key self));
      rewrite !str_app_assoc; eexists; reflexivity.
  - split; [|by intros ?%port_test_spec; congruence].
    intros (back & Heq). exfalso.
    destruct (Py.truthy (ssh_key self));
      rewrite !str_app_assoc in Heq; cbv [String.append] in Heq;
      discriminate Heq.
Qed.

(** C3.  In remote mode the last element of [wrap_command self cmd] is one
    string that [shlex.split] parses, without error, into exactly the
    arguments of [cmd], in order; this holds for every argument list,
    whatever blanks, quotes or other characters the arguments hold. *)
Theorem wrap_command_round_trip (self : SSHCommandWrapper) (cmd : list string) :
  ssh_enabled self = true →
  ∃ remote_command,
    last (wrap_command expanduser self cmd) = Some remote_command
    ∧ shlex.split remote_command = Some (Ok cmd).
Proof.
  intros Hen. exists (Py.join " " (map shlex.quote cmd)). split.
  - unfold wrap_command. rewrite Hen. cbn [negb]. apply last_snoc.
  - apply split_join_quote.
Qed.

(** C6.  [get_connection_info] returns a dictionary with the keys
    [enabled], [user], [host], [port] and [key]; [enabled] holds the flag;
    when the flag is set the other four hold the attributes, and when it
    is not they all hold [None], whatever the attributes are. *)
Theorem connection_info (self : SSHCommandWrapper) :
  dom (get_connection_info self)
    = ({["enabled"; "user"; "host"; "port"; "key"]} : gset string)
  ∧ get_connection_info self !! "enabled" = Some (VBool (ssh_enabled self))
  ∧ (ssh_enabled self = true →
       get_connection_info self !! "user" = Some (VStr (ssh_user self))
     ∧ get_connection_info self !! "host" = Some (VStr (ssh_host self))
     ∧ get_connection_info self !! "port" = Some (VStr (ssh_port self))
     ∧ get_connection_info self !! "key" = Some (VStr (ssh_key self)))
  ∧ (ssh_enabled self = false →
       get_connection_info self !! "user" = Some VNone
     ∧ get_connection_info self !! "host" = Some VNone
     ∧ get_connection_info self !! "port" = Some VNone
     ∧ get_connection_info self !! "key" = Some VNone).
Proof.
  unfold get_connection_info. cbn [list_to_map foldr uncurry fst snd].
  split; [|split; [|split]].
  - rewrite !dom_insert_L, dom_empty_L. set_solver.
  - by simplify_map_eq.
  - intros ->. repeat split; by simplify_map_eq.
  - intros ->. repeat split; by simplify_map_eq.
Qed.

(** C8.  For the empty command list [wrap_command] returns the empty
    list in local mode; in remote mode it returns the whole [ssh]
    invocation (program name, conditional flags, fixed options,
    destination) ending with the empty string as command argument. *)
Theorem wrap_command_empty (self : SSHCommandWrapper) :
  wrap_command expanduser self [] =
    if ssh_enabled self then
      ["ssh"]
      ++ (if decide (ssh_port self ≠ "" ∧ ssh_port self ≠ "22")
          then ["-p"; ssh_port self] else [])
      ++ (if decide (ssh_key self ≠ "")
          then ["-i"; expanduser (ssh_key self)] else [])
      ++ ["-o"; "StrictHostKeyChecking=no";
          "-o"; "UserKnownHostsFile=/dev/null";
          "-o"; "LogLevel=ERROR"]
      ++ [ssh_user self +:+ "@" +:+ ssh_host self]
      ++ [""]
    else [].
Proof.
  unfold wrap_command. destruct (ssh_enabled self); cbn [negb]; [|done].
  change (Py.join " " (map shlex.quote [])) with "".
  flag_cases self.
Qed.

End Transformer.

(** ** Configuration resolution *)

Section Resolver.

Variable expanduser : string → string.
Variable path_exists : string → bool.

Local Abbreviation __init__ := (Store.__init__ expanduser path_exists).

Ltac unfold_init :=
  unfold Store.__init__, Store._validate_config, Store.get_environ,
    Store.logger, Store.raise, mbind, mret, Store.M_bind, Store.M_ret.

(** What [__init__] does, by cases on the three fields it tests. *)
Lemma init_outcome (σ : Store.process) :
  (__init__ σ).1 =
    let self := read_environ (Store.environ σ) in
    if negb (ssh_enabled self) then Ok self
    else if negb (Py.truthy (ssh_user self)) then
      Raise (ValueError
        "KUBECTL_SSH_USER environment variable is required when SSH mode is enabled")
    else if negb (Py.truthy (ssh_host self)) then
      Raise (ValueError
        "KUBECTL_SSH_HOST environment variable is required when SSH mode is enabled")
    else Ok self.
Proof.
  unfold_init. cbn zeta. set (self := read_environ (Store.environ σ)).
  destruct (ssh_enabled self); cbn [negb fst snd]; [|done].
  destruct (Py.truthy (ssh_user self)); cbn [negb fst snd]; [|done].
  destruct (Py.truthy (ssh_host self)); cbn [negb fst snd]; [|done].
  by destruct (Py.truthy (ssh_key self) && _).
Qed.

(** Construction leaves everything but the log as it was. *)
Lemma init_frame (σ : Store.process) :
  Store.environ (__init__ σ).2 = Store.environ σ
  ∧ Store.heap (__init__ σ).2 = Store.heap σ
  ∧ Store._ssh_wrapper_instance (__init__ σ).2 = Store._ssh_wrapper_instance σ.
Proof.
  unfold_init. cbn zeta. set (self := read_environ (Store.environ σ)).
  destruct (ssh_enabled self); cbn [negb fst snd]; [|done].
  destruct (Py.truthy (ssh_user self)); cbn [negb fst snd]; [|done].
  destruct (Py.truthy (ssh_host self)); cbn [negb fst snd]; [|done].
  by destruct (Py.truthy (ssh_key self) && _).
Qed.

Lemma init_ok_read_environ σ self σ' :
  __init__ σ = (Ok self, σ') → self = read_environ (Store.environ σ).
Proof.
  intros H. pose proof (init_outcome σ) as Hout. rewrite H in Hout.
  cbn [fst] in Hout. cbn zeta in Hout.
  repeat match type of Hout with
         | context [if ?b then _ else _] => destruct b
         end; congruence.
Qed.

(** C4.  [__init__] raises exactly when the enable flag is set and the
    user or the host is empty; the user is tested first, so with both
    empty the error names [KUBECTL_SSH_USER]; with the flag set and both
    present it succeeds whatever the port and the key are; with the flag
    not set it always succeeds. *)
Theorem init_validation (σ : Store.process) :
  let self := read_environ (Store.environ σ) in
  ((∃ e, (__init__ σ).1 = Raise e)
     ↔ ssh_enabled self = true ∧ (ssh_user self = "" ∨ ssh_host self = ""))
  ∧ (ssh_enabled self = true → ssh_user self = "" →
     (__init__ σ).1 = Raise (ValueError
       "KUBECTL_SSH_USER environment variable is required when SSH mode is enabled"))
  ∧ (ssh_enabled self = true → ssh_user self ≠ "" → ssh_host self = "" →
     (__init__ σ).1 = Raise (ValueError
       "KUBECTL_SSH_HOST environment variable is required when SSH mode is enabled"))
  ∧ (ssh_enabled self = true → ssh_user self ≠ "" → ssh_host self ≠ "" →
     (__init__ σ).1 = Ok self)
  ∧ (ssh_enabled self = false → (__init__ σ).1 = Ok self).
Proof.
  intros self. rewrite init_outcome. cbn zeta. fold self.
  destruct (ssh_enabled self) eqn:Hen,
           (Py.truthy (ssh_user self)) eqn:Hu,
           (Py.truthy (ssh_host self)) eqn:Hh; cbn [negb];
    first [apply truthy_true in Hu | apply truthy_false in Hu];
    first [apply truthy_true in Hh | apply truthy_false in Hh];
    split_and!; try (intros; congruence);
    (split;
     [ intros [e He]; first [discriminate He | split; auto]
     | intros [? [?|?]]; first [congruence | eauto] ]).
Qed.

(** C7.  The [ssh_enabled] attribute of a constructed instance is true
    exactly when [KUBECTL_SSH_ENABLED] is set to a value that equals
    ['true'], ['1'] or ['yes'] up to the case of its letters; when the
    variable is not set the attribute is false. *)
Theorem enabled_flag (σ σ' : Store.process) (self : SSHCommandWrapper) :
  __init__ σ = (Ok self, σ') →
  (ssh_enabled self = true ↔
     ∃ v, Store.environ σ !! "KUBECTL_SSH_ENABLED" = Some v
          ∧ (str_eq_nocase v "true" ∨ str_eq_nocase v "1"
             ∨ str_eq_nocase v "yes"))
  ∧ (Store.environ σ !! "KUBECTL_SSH_ENABLED" = None →
     ssh_enabled self = false).
Proof.
  intros ->%init_ok_read_environ. split; [apply read_environ_enabled|].
  intros Hnone. apply not_true_is_false.
  rewrite read_environ_enabled. intros (v & Hv & _). congruence.
Qed.

End Resolver.

(** ** The process: inputs, instances and the accessor *)

Section Process.

Variable expanduser : string → string.
Variable path_exists : string → bool.

Lemma fresh_loc_ne (h : gmap positive Store.object) x o :
  h !! x = Some o → x ≠ fresh (dom h).
Proof.
  intros Hx ->. apply (is_fresh (dom h)). apply elem_of_dom. by exists o.
Qed.

Lemma bind_ok {A B : Type} (m : Store.M A) (f : A → Store.M B) σ a σ' :
  m σ = (Ok a, σ') → (m ≫= f) σ = f a σ'.
Proof. intros H. unfold mbind, Store.M_bind. by rewrite H. Qed.

Lemma getattr_ok {A : Type} self name (field : SSHCommandWrapper → A) σ w :
  Store.heap σ !! self = Some (Store.WrapperObj w) →
  Store.getattr self name field σ = (Ok (field w), σ).
Proof. intros H. unfold Store.getattr. by rewrite H. Qed.

Lemma list_items_ok r σ l :
  Store.heap σ !! r = Some (Store.ListObj l) →
  Store.list_items r σ = (Ok l, σ).
Proof. intros H. unfold Store.list_items. by rewrite H. Qed.

Lemma building_lookup_ne σ r acc lg x :
  x ≠ r → Store.heap (building σ r acc lg) !! x = Store.heap σ !! x.
Proof. intros H. unfold building. cbn. by rewrite lookup_insert_ne. Qed.

Lemma building_lookup σ r acc lg :
  Store.heap (building σ r acc lg) !! r = Some (Store.ListObj acc).
Proof. unfold building. cbn. by rewrite lookup_insert_eq. Qed.

Lemma list_extend_building σ r acc lg items :
  Store.list_extend r items (building σ r acc lg)
  = (Ok (), building σ r (acc ++ items) lg).
Proof.
  unfold Store.list_extend. rewrite building_lookup.
  unfold building. cbn. by rewrite insert_insert_eq.
Qed.

Lemma list_append_building σ r acc lg item :
  Store.list_append r item (building σ r acc lg)
  = (Ok (), building σ r (acc ++ [item]) lg).
Proof.
  unfold Store.list_append. rewrite building_lookup.
  unfold building. cbn. by rewrite insert_insert_eq.
Qed.

(** [wrap_command] on references computes [wrap_command] on values and
    writes only to a list of its own. *)
Lemma wrap_command_run σ self cmd w l :
  Store.heap σ !! self = Some (Store.WrapperObj w) →
  Store.heap σ !! cmd = Some (Store.ListObj l) →
  Store.wrap_command expanduser self cmd σ =
    if ssh_enabled w then
      let r := fresh (dom (Store.heap σ)) in
      let out := wrap_command expanduser w l in
      (Ok r, building σ r out
               (Store.log σ ++ [(Store.DEBUG,
                                 "Wrapped command: " +:+ Py.join " " out)]))
    else (Ok cmd, σ).
Proof.
  intros Hself Hcmd. unfold Store.wrap_command.
  rewrite (bind_ok _ _ σ _ σ (getattr_ok self _ _ σ w Hself)).
  unfold wrap_command.
  destruct (ssh_enabled w); cbn [negb]; [|done].
  set (r := fresh (dom (Store.heap σ))).
  assert (self ≠ r) as Hsr by (by eapply fresh_loc_ne).
  assert (cmd ≠ r) as Hcr by (by eapply fresh_loc_ne).
  assert (∀ acc lg, Store.heap (building σ r acc lg) !! self
                    = Some (Store.WrapperObj w)) as Hself'.
  { intros. by rewrite building_lookup_ne. }
  assert (∀ acc lg, Store.heap (building σ r acc lg) !! cmd
                    = Some (Store.ListObj l)) as Hcmd'.
  { intros. by rewrite building_lookup_ne. }
  rewrite (bind_ok _ _ σ r (building σ r ["ssh"] (Store.log σ))) by done.
  erewrite bind_ok by (by apply getattr_ok).
  destruct (Py.truthy (ssh_port w) && negb (String.eqb (ssh_port w) "22")).
  all: erewrite bind_ok by first [apply list_extend_building | reflexivity].
  all: erewrite bind_ok by (by apply getattr_ok).
  all: destruct (Py.truthy (ssh_key w)).
  all: erewrite bind_ok by first [apply list_extend_building | reflexivity].
  all: erewrite bind_ok by apply list_extend_building.
  all: erewrite bind_ok by (by apply getattr_ok).
  all: erewrite bind_ok by (by apply getattr_ok).
  all: erewrite bind_ok by apply list_append_building.
  all: erewrite bind_ok by (by apply list_items_ok).
  all: erewrite bind_ok by apply list_append_building.
  all: erewrite bind_ok by (apply list_items_ok, building_lookup).
  all: reflexivity.
Qed.

Lemma wrap_shell_command_run σ self s w :
  Store.heap σ !! self = Some (Store.WrapperObj w) →
  Store.wrap_shell_command expanduser self s σ =
    if ssh_enabled w then
      let out := wrap_shell_command expanduser w s in
      (Ok out,
       Store.Process (Store.environ σ) (Store.heap σ)
         (Store._ssh_wrapper_instance σ)
         (Store.log σ ++ [(Store.DEBUG, "Wrapped shell command: " +:+ out)]))
    else (Ok s, σ).
Proof.
  intros Hself. unfold Store.wrap_shell_command.
  rewrite (bind_ok _ _ σ _ σ (getattr_ok self _ _ σ w Hself)).
  unfold wrap_shell_command.
  destruct (ssh_enabled w); cbn [negb]; [|done].
  do 4 (erewrite bind_ok by (by apply getattr_ok)).
  reflexivity.
Qed.

(** C10.  For a list [cmd] and an instance [self] in the heap,
    [wrap_command] returns normally, leaves [cmd], [self] and every other
    object of the heap as they were, and in remote mode returns a list
    that did not exist before; [wrap_shell_command] returns normally and
    leaves the heap as it was. *)
Theorem wrap_leaves_inputs (σ : Store.process) (self cmd : positive)
    (w : SSHCommandWrapper) (l : list string) (s : string) :
  Store.heap σ !! self = Some (Store.WrapperObj w) →
  Store.heap σ !! cmd = Some (Store.ListObj l) →
  (∃ r σ',
     Store.wrap_command expanduser self cmd σ = (Ok r, σ')
     ∧ Store.heap σ' !! cmd = Some (Store.ListObj l)
     ∧ Store.heap σ' !! self = Some (Store.WrapperObj w)
     ∧ (∀ x o, Store.heap σ !! x = Some o → Store.heap σ' !! x = Some o)
     ∧ (if ssh_enabled w then r ∉ dom (Store.heap σ) else r = cmd)
     ∧ Store.heap σ' !! r = Some (Store.ListObj (wrap_command expanduser w l)))
  ∧ (∃ out σ',
       Store.wrap_shell_command expanduser self s σ = (Ok out, σ')
       ∧ out = wrap_shell_command expanduser w s
       ∧ Store.heap σ' = Store.heap σ).
Proof.
  intros Hself Hcmd. split.
  - rewrite (wrap_command_run σ self cmd w l Hself Hcmd).
    destruct (ssh_enabled w) eqn:Hen; cbn zeta.
    + eexists _, _. split; [reflexivity|].
      assert (∀ x o, Store.heap σ !! x = Some o →
                Store.heap (building σ (fresh (dom (Store.heap σ)))
                  (wrap_command expanduser w l)
                  (Store.log σ ++ [(Store.DEBUG, "Wrapped command: "
                     +:+ Py.join " " (wrap_command expanduser w l))])) !! x
                = Some o) as Hframe.
      { intros x o Hx. rewrite building_lookup_ne; [done|].
        by eapply fresh_loc_ne. }
      split_and!; [by apply Hframe | by apply Hframe | done
                  | apply is_fresh | apply building_lookup].
    + exists cmd, σ. split_and!; try done.
      unfold wrap_command. by rewrite Hen.
  - rewrite (wrap_shell_command_run σ self s w Hself).
    destruct (ssh_enabled w) eqn:Hen; cbn zeta.
    + by eexists _, _.
    + exists s, σ. split_and!; try done.
      unfold wrap_shell_command. by rewrite Hen.
Qed.

(** *** The accessor *)

Local Abbreviation get_ssh_wrapper :=
  (Store.get_ssh_wrapper expanduser path_exists).
Local Abbreviation run := (Store.run expanduser path_exists).

Lemma get_cached σ r :
  Store._ssh_wrapper_instance σ = Some r → get_ssh_wrapper σ = (Ok r, σ).
Proof.
  intros H. unfold Store.get_ssh_wrapper, Store.load_global.
  unfold mbind, Store.M_bind. by rewrite H.
Qed.

(** Without a cached instance the accessor constructs one. *)
Lemma get_uncached σ :
  Store._ssh_wrapper_instance σ = None →
  get_ssh_wrapper σ =
    match Store.__init__ expanduser path_exists σ with
    | (Ok self, σ1) =>
        let r := fresh (dom (Store.heap σ1)) in
        (Ok r, Store.Process (Store.environ σ1)
                 (<[r := Store.WrapperObj self]> (Store.heap σ1))
                 (Some r) (Store.log σ1))
    | (Raise e, σ1) => (Raise e, σ1)
    end.
Proof.
  intros H. unfold Store.get_ssh_wrapper, Store.load_global, Store.new.
  unfold mbind, Store.M_bind. rewrite H.
  by destruct (Store.__init__ expanduser path_exists σ) as [[self|e] σ1].
Qed.

Lemma get_ok_cached σ r σ' :
  get_ssh_wrapper σ = (Ok r, σ') → Store._ssh_wrapper_instance σ' = Some r.
Proof.
  destruct (Store._ssh_wrapper_instance σ) as [r0|] eqn:Hinst.
  - rewrite (get_cached σ r0 Hinst). by intros [= <- <-].
  - rewrite (get_uncached σ Hinst).
    destruct (Store.__init__ expanduser path_exists σ) as [[self|e] σ1];
      [|done].
    by intros [= <- <-].
Qed.

(** While no reset happens, a cached instance answers every call. *)
Lemma run_cached ops : ∀ σ r,
  Store._ssh_wrapper_instance σ = Some r →
  existsb Store.is_reset ops = false →
  Forall (λ res, res = Ok r) (run ops σ).1
  ∧ Store.heap (run ops σ).2 = Store.heap σ
  ∧ Store.log (run ops σ).2 = Store.log σ
  ∧ Store._ssh_wrapper_instance (run ops σ).2 = Some r.
Proof.
  induction ops as [|o ops IH]; intros σ r Hinst Hops; [by split_and!|].
  destruct o as [| |k v|k]; cbn [existsb Store.is_reset orb] in Hops;
    [|done|..]; cbn [Store.run].
  - rewrite (get_cached σ r Hinst).
    destruct (IH σ r Hinst Hops) as (Hall & Hheap & Hlog & Hi).
    destruct (Store.run expanduser path_exists ops σ) as [rs σ'].
    cbn [fst snd] in *. split_and!; try done. by constructor.
  - apply (IH (Store.putenv k v σ).2 r); done.
  - apply (IH (Store.unsetenv k σ).2 r); done.
Qed.

Lemma get_after_reset σ r σ2 :
  get_ssh_wrapper (Store.reset_ssh_wrapper σ).2 = (Ok r, σ2) →
  (r ∉ dom (Store.heap σ))
  ∧ Store.heap σ2 !! r
    = Some (Store.WrapperObj (read_environ (Store.environ σ)))
  ∧ Store._ssh_wrapper_instance σ2 = Some r.
Proof.
  set (σ0 := (Store.reset_ssh_wrapper σ).2).
  rewrite (get_uncached σ0) by done.
  pose proof (init_frame expanduser path_exists σ0) as (_ & Hheap & _).
  destruct (Store.__init__ expanduser path_exists σ0) as [[self|e] σ1] eqn:Hinit;
    [|done].
  apply init_ok_read_environ in Hinit as ->.
  cbn [snd] in Hheap. cbn zeta. intros [= <- <-]. cbn.
  rewrite Hheap. split_and!; [apply is_fresh | apply lookup_insert_eq | done].
Qed.

Lemma get_after_reset_ok σ :
  let self := read_environ (Store.environ σ) in
  (ssh_enabled self = false ∨ (ssh_user self ≠ "" ∧ ssh_host self ≠ "")) →
  ∃ r σ2, get_ssh_wrapper (Store.reset_ssh_wrapper σ).2 = (Ok r, σ2).
Proof.
  intros self Hvalid. set (σ0 := (Store.reset_ssh_wrapper σ).2).
  rewrite (get_uncached σ0) by done.
  pose proof (init_outcome expanduser path_exists σ0) as Hout.
  destruct (Store.__init__ expanduser path_exists σ0) as [[w|e] σ1];
    [by eexists _, _|].
  exfalso. cbn [fst] in Hout. cbn zeta in Hout.
  change (Store.environ σ0) with (Store.environ σ) in Hout. fold self in Hout.
  destruct Hvalid as [Hen|[Hu Hh]].
  - by rewrite Hen in Hout.
  - apply truthy_true in Hu, Hh. rewrite Hu, Hh in Hout.
    by destruct (ssh_enabled self).
Qed.

(** C9.  Once [get_ssh_wrapper] has returned an instance, every later
    call returns that same instance without constructing anything (heap
    and log stay as they were), whatever happens to the environment, as
    long as [reset_ssh_wrapper] is not called; [reset_ssh_wrapper] clears
    the global; the call after it constructs a new instance from the
    environment of that moment, and succeeds when that environment is
    valid. *)
Theorem accessor_lifecycle (σ : Store.process) :
  (∀ r σ1 ops,
     get_ssh_wrapper σ = (Ok r, σ1) →
     existsb Store.is_reset ops = false →
     Forall (λ res, res = Ok r) (run ops σ1).1
     ∧ Store.heap (run ops σ1).2 = Store.heap σ1
     ∧ Store.log (run ops σ1).2 = Store.log σ1
     ∧ Store._ssh_wrapper_instance (run ops σ1).2 = Some r)
  ∧ Store._ssh_wrapper_instance (Store.reset_ssh_wrapper σ).2 = None
  ∧ (∀ r σ2,
       get_ssh_wrapper (Store.reset_ssh_wrapper σ).2 = (Ok r, σ2) →
       (r ∉ dom (Store.heap σ))
       ∧ Store.heap σ2 !! r
         = Some (Store.WrapperObj (read_environ (Store.environ σ)))
       ∧ Store._ssh_wrapper_instance σ2 = Some r)
  ∧ ((ssh_enabled (read_environ (Store.environ σ)) = false
      ∨ (ssh_user (read_environ (Store.environ σ)) ≠ ""
         ∧ ssh_host (read_environ (Store.environ σ)) ≠ "")) →
     ∃ r σ2, get_ssh_wrapper (Store.reset_ssh_wrapper σ).2 = (Ok r, σ2)).
Proof.
  split_and!.
  - intros r σ1 ops Hget Hops. apply run_cached; [|done].
    by eapply get_ok_cached.
  - done.
  - apply get_after_reset.
  - apply get_after_reset_ok.
Qed.

End Process.

(** ** The theorems at sample inputs *)

Lemma wrap_command_remote_witness :
  ssh_enabled alice = true
  ∧ wrap_command expanduser_alice alice ["kubectl"; "get"; "pods"]
    = ["ssh"; "-o"; "StrictHostKeyChecking=no";
       "-o"; "UserKnownHostsFile=/dev/null"; "-o"; "LogLevel=ERROR";
       "alice@10.0.0.5"; "kubectl get pods"].
Proof.
  split; [reflexivity|].
  exact (wrap_command_remote expanduser_alice alice
           ["kubectl"; "get"; "pods"] eq_refl).
Defined.

Lemma local_mode_identity_witness :
  ssh_enabled alice_local = false
  ∧ wrap_command expanduser_alice alice_local ["kubectl"; "get"; "pods"]
    = ["kubectl"; "get"; "pods"]
  ∧ wrap_shell_command expanduser_alice alice_local
      "kubectl get pods | grep Running"
    = "kubectl get pods | grep Running".
Proof.
  split; [reflexivity|].
  exact (local_mode_identity expanduser_alice alice_local
           ["kubectl"; "get"; "pods"] "kubectl get pods | grep Running"
           eq_refl).
Defined.

Lemma wrap_command_round_trip_witness :
  ssh_enabled alice_022 = true
  ∧ ∃ remote_command,
      last (wrap_command expanduser_alice alice_022
              ["kubectl"; "exec"; "it's"; "a b"; ""])
      = Some remote_command
      ∧ shlex.split remote_command
        = Some (Ok ["kubectl"; "exec"; "it's"; "a b"; ""]).
Proof.
  split; [reflexivity|].
  exact (wrap_command_round_trip expanduser_alice alice_022
           ["kubectl"; "exec"; "it's"; "a b"; ""] eq_refl).
Defined.

Lemma enabled_flag_witness :
  ∃ self σ',
    Store.__init__ expanduser_alice every_path_exists sample_process
    = (Ok self, σ')
    ∧ (ssh_enabled self = true ↔
         ∃ v, sample_environ !! "KUBECTL_SSH_ENABLED" = Some v
              ∧ (str_eq_nocase v "true" ∨ str_eq_nocase v "1"
                 ∨ str_eq_nocase v "yes"))
    ∧ (sample_environ !! "KUBECTL_SSH_ENABLED" = None →
       ssh_enabled self = false).
Proof.
  eexists _, _. split; [vm_compute; reflexivity|].
  eapply (enabled_flag expanduser_alice every_path_exists sample_process).
  vm_compute. reflexivity.
Defined.

Lemma wrap_leaves_inputs_witness :
  Store.heap sample_heap_process !! 1%positive
  = Some (Store.WrapperObj alice_022)
  ∧ Store.heap sample_heap_process !! 2%positive
    = Some (Store.ListObj ["kubectl"; "get"; "pods"])
  ∧ ∃ r σ',
      Store.wrap_command expanduser_alice 1%positive 2%positive
        sample_heap_process = (Ok r, σ')
      ∧ Store.heap σ' !! 2%positive
        = Some (Store.ListObj ["kubectl"; "get"; "pods"])
      ∧ Store.heap σ' !! 1%positive = Some (Store.WrapperObj alice_022).
Proof.
  split; [reflexivity|]. split; [reflexivity|].
  destruct (wrap_leaves_inputs expanduser_alice sample_heap_process
              1%positive 2%positive alice_022 ["kubectl"; "get"; "pods"]
              "ls" eq_refl eq_refl)
    as [(r & σ' & Hrun & Hcmd & Hself & _) _].
  exists r, σ'. exact (conj Hrun (conj Hcmd Hself)).
Defined.

(** ** The model at work *)

Example quote_samples :
  map shlex.quote ["kubectl"; "a b"; "it's"; ""; "--selector=app=web"]
  = ["kubectl"; "'a b'";
     String "'" ("it" +:+ shlex.squote_escape +:+ "s'");
     "''"; "--selector=app=web"].
Proof. reflexivity. Qed.

Example split_unclosed_quote :
  shlex.split "kubectl 'get pods"
  = Some (Raise (ValueError "No closing quotation")).
Proof. reflexivity. Qed.

Example wrap_port_2222 :
  wrap_command expanduser_alice
    {| ssh_enabled := true; ssh_user := "alice"; ssh_host := "10.0.0.5";
       ssh_port := "2222"; ssh_key := "" |} ["ls"]
  = ["ssh"; "-p"; "2222"; "-o"; "StrictHostKeyChecking=no";
     "-o"; "UserKnownHostsFile=/dev/null"; "-o"; "LogLevel=ERROR";
     "alice@10.0.0.5"; "ls"].
Proof. reflexivity. Qed.

Example wrap_port_and_key :
  wrap_command expanduser_alice alice_022 ["kubectl"; "logs"; "my pod"]
  = ["ssh"; "-p"; "022"; "-i"; "/home/alice/.ssh/id_rsa";
     "-o"; "StrictHostKeyChecking=no";
     "-o"; "UserKnownHostsFile=/dev/null"; "-o"; "LogLevel=ERROR";
     "alice@10.0.0.5"; "kubectl logs 'my pod'"].
Proof. reflexivity. Qed.

Example wrap_shell_alice :
  wrap_shell_command expanduser_alice alice "kubectl get pods | grep Running"
  = "ssh -o StrictHostKeyChecking=no -o UserKnownHostsFile=/dev/null -o LogLevel=ERROR alice@10.0.0.5 'kubectl get pods | grep Running'".
Proof. reflexivity. Qed.

Example port_22_no_flag :
  ¬ port_flag_pair "22" (wrap_command expanduser_alice alice ["ls"]).
Proof.
  intros H.
  apply (wrap_command_port_flag expanduser_alice alice ["ls"] eq_refl) in H.
  by destruct H as [_ H].
Qed.

Example connection_info_local :
  get_connection_info alice_local !! "user" = Some VNone
  ∧ get_connection_info alice_local !! "enabled" = Some (VBool false).
Proof. by vm_compute. Qed.

(** With the flag set and neither user nor host, the error names the
    user. *)
Example init_both_missing :
  (Store.__init__ expanduser_alice every_path_exists
     (Store.Process (<["KUBECTL_SSH_ENABLED" := "1"]> ∅) ∅ None [])).1
  = Raise (ValueError
      "KUBECTL_SSH_USER environment variable is required when SSH mode is enabled").
Proof. by vm_compute. Qed.

(** Two calls share one instance although the environment changed in
    between; after a reset the third call builds another one, from the
    new environment. *)
Example accessor_run :
  let ops := [Store.Get; Store.PutEnv "KUBECTL_SSH_ENABLED" "no";
              Store.Get; Store.Reset; Store.Get] in
  let result := Store.run expanduser_alice every_path_exists ops
                  sample_process in
  result.1 = [Ok 1%positive; Ok 1%positive; Ok 2%positive]
  ∧ ssh_enabled <$> (Store.heap result.2 !! 1%positive ≫= λ o,
        match o with Store.WrapperObj w => Some w | _ => None end)
    = Some true
  ∧ ssh_enabled <$> (Store.heap result.2 !! 2%positive ≫= λ o,
        match o with Store.WrapperObj w => Some w | _ => None end)
    = Some false.
Proof. by vm_compute. Qed.

(** ** More on the lexer *)

Lemma plain_app s t : plain (s +:+ t) = plain s && plain t.
Proof.
  induction s as [|c s IH]; [done|].
  rewrite str_app_cons. cbn [plain]. by rewrite IH, andb_assoc.
Qed.

Lemma plain_char_spec c :
  plain_char c = true →
  Py.char_in c shlex.whitespace = false
  ∧ Py.char_in c shlex.quotes = false
  ∧ Py.char_in c shlex.escape = false.
Proof.
  unfold plain_char. rewrite !andb_true_iff, !negb_true_iff. tauto.
Qed.

(** In word state, a run of plain characters joins the token. *)
Lemma read_plain_run s : ∀ esc quoted tok rest,
  plain s = true →
  shlex.read_token_loop shlex.StWord esc quoted tok (s +:+ rest)
  = shlex.read_token_loop shlex.StWord esc quoted (tok +:+ s) rest.
Proof.
  induction s as [|c s IH]; intros esc quoted tok rest Hplain.
  - by rewrite str_app_nil_r.
  - cbn [plain] in Hplain. apply andb_true_iff in Hplain as [Hc Hs].
    destruct (plain_char_spec c Hc) as (Hw & Hq & He).
    rewrite str_app_cons. cbn [shlex.read_token_loop].
    rewrite Hw, Hq, He. rewrite IH by done. by rewrite snoc_app.
Qed.

Lemma read_plain_word w rest :
  w ≠ "" → plain w = true →
  shlex.read_token shlex.StSpace (w +:+ rest)
  = shlex.read_token_loop shlex.StWord shlex.StSpace false w rest.
Proof.
  intros Hne Hplain. destruct w as [|c s]; [done|].
  cbn [plain] in Hplain. apply andb_true_iff in Hplain as [Hc Hs].
  destruct (plain_char_spec c Hc) as (Hw & Hq & He).
  unfold shlex.read_token. rewrite str_app_cons.
  cbn [shlex.read_token_loop]. rewrite Hw, He, Hq.
  assert (shlex.read_token_loop shlex.StWord shlex.StSpace false
            (String c "") (s +:+ rest)
          = shlex.read_token_loop shlex.StWord shlex.StSpace false
            (String c s) rest) as Hrun
    by (by rewrite read_plain_run).
  by destruct (Py.char_in c shlex.wordchars).
Qed.

Lemma reads_as_plain w : w ≠ "" → plain w = true → reads_as w w.
Proof.
  intros Hne Hplain. split.
  - intros rest. rewrite read_plain_word by done.
    apply read_word_blank. by destruct w.
  - rewrite <- (str_app_nil_r w) at 1. rewrite read_plain_word by done.
    apply read_word_end. by destruct w.
Qed.

Lemma reads_as_quote a : reads_as (shlex.quote a) a.
Proof.
  split; [intros rest; apply read_token_quote_blank
         | apply read_token_quote_last].
Qed.

(** The tokens of pieces joined by blanks are the words the pieces are
    read as. *)
Lemma tokens_pieces pieces : ∀ words fuel,
  Forall2 reads_as pieces words →
  length pieces < fuel →
  shlex.tokens fuel shlex.StSpace (Py.join " " pieces) = Some (Ok words).
Proof.
  induction pieces as [|p pieces IH]; intros words fuel Hall Hfuel.
  - apply Forall2_nil_inv_l in Hall as ->.
    destruct fuel as [|fuel]; [lia|]. reflexivity.
  - apply Forall2_cons_inv_l in Hall as (w & words' & [Hblank Hend] & Hall & ->).
    destruct fuel as [|fuel]; [simpl in Hfuel; lia|].
    destruct pieces as [|q pieces].
    + apply Forall2_nil_inv_l in Hall as ->.
      cbn [Py.join String.concat shlex.tokens]. rewrite Hend.
      cbn [shlex.tr_token shlex.tr_state shlex.tr_rest].
      destruct fuel as [|fuel]; [simpl in Hfuel; lia|]. reflexivity.
    + change (Py.join " " (p :: q :: pieces))
        with (p +:+ " " +:+ Py.join " " (q :: pieces)).
      cbn [shlex.tokens]. rewrite Hblank.
      cbn [shlex.tr_token shlex.tr_state shlex.tr_rest].
      rewrite (IH words') by (simpl in *; done || lia). done.
Qed.

(** More fuel does not change what the lexer returns. *)
Lemma tokens_mono fuel : ∀ fuel' st s r,
  shlex.tokens fuel st s = Some r → fuel ≤ fuel' →
  shlex.tokens fuel' st s = Some r.
Proof.
  induction fuel as [|fuel IH]; intros fuel' st s r H Hle; [done|].
  destruct fuel' as [|fuel']; [lia|].
  cbn [shlex.tokens] in *.
  destruct (shlex.read_token st s) as [res|e]; [|done].
  destruct (shlex.tr_token res) as [tok|]; [|done].
  destruct (shlex.tokens fuel (shlex.tr_state res) (shlex.tr_rest res))
    as [inner|] eqn:Hinner; [|done].
  rewrite (IH fuel' _ _ inner Hinner) by lia. done.
Qed.

Lemma split_of_tokens fuel s r :
  shlex.tokens fuel shlex.StSpace s = Some r → shlex.split s = Some r.
Proof.
  intros H. unfold shlex.split.
  destruct (shlex.tokens (S (String.length s)) shlex.StSpace s) as [r'|] eqn:Hs.
  - pose proof (tokens_mono _ (fuel `max` S (String.length s)) _ _ _ H
                  ltac:(lia)) as H1.
    pose proof (tokens_mono _ (fuel `max` S (String.length s)) _ _ _ Hs
                  ltac:(lia)) as H2.
    congruence.
  - by apply tokens_total in Hs; [|lia].
Qed.

Lemma split_pieces pieces words :
  Forall2 reads_as pieces words →
  shlex.split (Py.join " " pieces) = Some (Ok words).
Proof.
  intros H. apply (split_of_tokens (S (length pieces))).
  apply tokens_pieces; [done | lia].
Qed.

(** ** The two forms of the transformer *)

Section Forms.

Variable expanduser : string → string.

Lemma wrap_command_argv self cmd :
  ssh_enabled self = true →
  wrap_command expanduser self cmd
  = ssh_argv expanduser self ++ [Py.join " " (map shlex.quote cmd)].
Proof.
  intros Hen. unfold wrap_command, ssh_argv. rewrite Hen. cbn [negb].
  by destruct (Py.truthy (ssh_port self) && _), (Py.truthy (ssh_key self)).
Qed.

(** In remote mode the shell form is its pieces joined by blanks. *)
Lemma wrap_shell_command_join self s :
  ssh_enabled self = true →
  wrap_shell_command expanduser self s
  = Py.join " "
      (["ssh"]
       ++ (if Py.truthy (ssh_port self)
              && negb (String.eqb (ssh_port self) "22")
           then ["-p"; ssh_port self] else [])
       ++ (if Py.truthy (ssh_key self)
           then ["-i"; shlex.quote (expanduser (ssh_key self))] else [])
       ++ ["-o"; "StrictHostKeyChecking=no";
           "-o"; "UserKnownHostsFile=/dev/null";
           "-o"; "LogLevel=ERROR"]
       ++ [ssh_user self +:+ "@" +:+ ssh_host self]
       ++ [shlex.quote s]).
Proof.
  intros Hen. unfold wrap_shell_command. rewrite Hen. cbn [negb].
  destruct (Py.truthy (ssh_port self) && _), (Py.truthy (ssh_key self));
    cbn [app Py.join String.concat]; rewrite !str_app_assoc; reflexivity.
Qed.

Lemma reads_as_destination u h :
  plain u = true → plain h = true → reads_as (u +:+ "@" +:+ h) (u +:+ "@" +:+ h).
Proof.
  intros Hu Hh. apply reads_as_plain.
  - destruct u; discriminate.
  - rewrite !plain_app, Hu, Hh. reflexivity.
Qed.

Lemma wrap_shell_command_tokens self s :
  ssh_enabled self = true →
  plain (ssh_port self) = true →
  plain (ssh_user self) = true →
  plain (ssh_host self) = true →
  shlex.split (wrap_shell_command expanduser self s)
  = Some (Ok (ssh_argv expanduser self ++ [s])).
Proof.
  intros Hen Hport Huser Hhost.
  rewrite wrap_shell_command_join by done. apply split_pieces.
  unfold ssh_argv.
  pose proof (reads_as_destination _ _ Huser Hhost) as Hdest.
  pose proof (reads_as_quote s) as Hs.
  assert (reads_as "ssh" "ssh") as Hssh by exact (reads_as_quote "ssh").
  assert (reads_as "-p" "-p") as Hp by exact (reads_as_quote "-p").
  assert (reads_as "-i" "-i") as Hi by exact (reads_as_quote "-i").
  assert (reads_as "-o" "-o") as Ho by exact (reads_as_quote "-o").
  assert (reads_as "StrictHostKeyChecking=no" "StrictHostKeyChecking=no") as H1 by exact (reads_as_quote "StrictHostKeyChecking=no").
  assert (reads_as "UserKnownHostsFile=/dev/null" "UserKnownHostsFile=/dev/null") as H2 by exact (reads_as_quote "UserKnownHostsFile=/dev/null").
  assert (reads_as "LogLevel=ERROR" "LogLevel=ERROR") as H3 by exact (reads_as_quote "LogLevel=ERROR").
  pose proof (reads_as_quote (expanduser (ssh_key self))) as Hkey.
  destruct (Py.truthy (ssh_port self) && _) eqn:Hflag.
  - apply andb_true_iff in Hflag as [Hne%truthy_true _].
    pose proof (reads_as_plain _ Hne Hport) as Hpt.
    destruct (Py.truthy (ssh_key self)); cbn [app];
      repeat (constructor; [assumption|]); constructor.
  - destruct (Py.truthy (ssh_key self)); cbn [app];
      repeat (constructor; [assumption|]); constructor.
Qed.

End Forms.

Section FormsProperties.

Variable expanduser : string → string.

Lemma ssh_argv_decide self :
  ssh_argv expanduser self
  = ["ssh"]
    ++ (if decide (ssh_port self ≠ "" ∧ ssh_port self ≠ "22")
        then ["-p"; ssh_port self] else [])
    ++ (if decide (ssh_key self ≠ "")
        then ["-i"; expanduser (ssh_key self)] else [])
    ++ ["-o"; "StrictHostKeyChecking=no";
        "-o"; "UserKnownHostsFile=/dev/null";
        "-o"; "LogLevel=ERROR"]
    ++ [ssh_user self +:+ "@" +:+ ssh_host self].
Proof.
  unfold ssh_argv.
  destruct (Py.truthy (ssh_port self) && negb (String.eqb (ssh_port self) "22"))
    eqn:Hport;
  [ apply port_test_spec in Hport; rewrite decide_True by done
  | assert (¬ explicit_port self)
      by (rewrite <- port_test_spec; congruence);
    rewrite decide_False by done ];
  (destruct (Py.truthy (ssh_key self)) eqn:Hkey;
   [ apply truthy_true in Hkey; by rewrite decide_True
   | apply truthy_false in Hkey; by rewrite decide_False by (by intros []) ]).
Qed.



(** X1.  In remote mode, when port, user and host hold no blank, quote
    or backslash, [shlex.split] parses the output of
    [wrap_shell_command] without error into: [ssh], the port pair and
    the key pair under their conditions, the three option pairs, the
    token [user@host], and last the caller's string [s] itself, as one
    argument.  The key path may hold any character. *)
Theorem shell_form_round_trip (self : SSHCommandWrapper) (s : string) :
  ssh_enabled self = true →
  plain (ssh_port self) = true →
  plain (ssh_user self) = true →
  plain (ssh_host self) = true →
  shlex.split (wrap_shell_command expanduser self s)
  = Some (Ok
      (["ssh"]
       ++ (if decide (ssh_port self ≠ "" ∧ ssh_port self ≠ "22")
           then ["-p"; ssh_port self] else [])
       ++ (if decide (ssh_key self ≠ "")
           then ["-i"; expanduser (ssh_key self)] else [])
       ++ ["-o"; "StrictHostKeyChecking=no";
           "-o"; "UserKnownHostsFile=/dev/null";
           "-o"; "LogLevel=ERROR"]
       ++ [ssh_user self +:+ "@" +:+ ssh_host self]
       ++ [s])).
Proof.
  intros Hen Hport Huser Hhost.
  rewrite wrap_shell_command_tokens by done.
  rewrite ssh_argv_decide. by rewrite <- !app_assoc.
Qed.

(** X2.  The two forms agree: in remote mode, with port, user and host
    free of blanks, quotes and backslashes, the shell form applied to
    the quoted and joined arguments of [cmd] parses into exactly the
    list that [wrap_command] returns for [cmd]. *)
Theorem shell_form_agrees_with_list_form (self : SSHCommandWrapper)
    (cmd : list string) :
  ssh_enabled self = true →
  plain (ssh_port self) = true →
  plain (ssh_user self) = true →
  plain (ssh_host self) = true →
  shlex.split
    (wrap_shell_command expanduser self (Py.join " " (map shlex.quote cmd)))
  = Some (Ok (wrap_command expanduser self cmd)).
Proof.
  intros Hen Hport Huser Hhost.
  rewrite wrap_shell_command_tokens by done.
  by rewrite wrap_command_argv.
Qed.

Lemma quote_inj a b : shlex.quote a = shlex.quote b → a = b.
Proof.
  intros H. pose proof (read_token_quote_last a) as Ha.
  rewrite H, read_token_quote_last in Ha. congruence.
Qed.

(** X3.  Wrapping loses nothing: for one configuration, in either mode,
    two argument lists with the same [wrap_command] output are equal,
    and two strings with the same [wrap_shell_command] output are
    equal. *)
Theorem wrap_injective (self : SSHCommandWrapper) :
  (∀ cmd1 cmd2,
     wrap_command expanduser self cmd1 = wrap_command expanduser self cmd2 →
     cmd1 = cmd2)
  ∧ (∀ s1 s2,
       wrap_shell_command expanduser self s1
       = wrap_shell_command expanduser self s2 →
       s1 = s2).
Proof.
  destruct (ssh_enabled self) eqn:Hen; split.
  - intros cmd1 cmd2 H. rewrite !wrap_command_argv in H by done.
    apply app_inv_head in H. injection H as H.
    pose proof (split_join_quote cmd1) as H1.
    rewrite H, split_join_quote in H1. congruence.
  - intros s1 s2 H. unfold wrap_shell_command in H. rewrite Hen in H.
    cbn [negb] in H. cbv zeta in H.
    repeat apply (inj (String.app _)) in H. by apply quote_inj.
  - intros cmd1 cmd2. unfold wrap_command. by rewrite Hen.
  - intros s1 s2. unfold wrap_shell_command. by rewrite Hen.
Qed.

(** X4.  [is_enabled] tells whether wrapping does anything: it is false
    exactly when [wrap_command] returns every list as it is, and exactly
    when [wrap_shell_command] returns every string as it is; when it is
    true, wrapping changes the empty list and the empty string. *)
Theorem is_enabled_iff_identity (self : SSHCommandWrapper) :
  (is_enabled self = false ↔ ∀ cmd, wrap_command expanduser self cmd = cmd)
  ∧ (is_enabled self = false
     ↔ ∀ s, wrap_shell_command expanduser self s = s)
  ∧ (is_enabled self = true →
     wrap_command expanduser self [] ≠ []
     ∧ wrap_shell_command expanduser self "" ≠ "").
Proof.
  unfold is_enabled.
  assert (ssh_enabled self = true →
          wrap_command expanduser self [] ≠ []
          ∧ wrap_shell_command expanduser self "" ≠ "") as Hchanges.
  { intros Hen. split.
    - rewrite wrap_command_argv by done.
      by destruct (ssh_argv expanduser self).
    - unfold wrap_shell_command. rewrite Hen. cbn [negb]. cbv zeta.
      destruct (Py.truthy (ssh_port self) && _), (Py.truthy (ssh_key self));
        rewrite !str_app_assoc; discriminate. }
  split_and!; [split | split | done].
  - intros Hen cmd. unfold wrap_command. by rewrite Hen.
  - intros H. destruct (ssh_enabled self) eqn:Hen; [|done].
    destruct (Hchanges eq_refl) as [Hl _]. exfalso. apply Hl, H.
  - intros Hen s. unfold wrap_shell_command. by rewrite Hen.
  - intros H. destruct (ssh_enabled self) eqn:Hen; [|done].
    destruct (Hchanges eq_refl) as [_ Hs]. exfalso. apply Hs, H.
Qed.

End FormsProperties.

(** ** Construction, the accessor and the heap *)

Section Lifecycle.

Variable expanduser : string → string.
Variable path_exists : string → bool.

Local Abbreviation __init__ := (Store.__init__ expanduser path_exists).
Local Abbreviation get_ssh_wrapper :=
  (Store.get_ssh_wrapper expanduser path_exists).
Local Abbreviation run := (Store.run expanduser path_exists).

(** An exception of [__init__] leaves the process as it was. *)
Lemma init_raise_unchanged σ e σ' : __init__ σ = (Raise e, σ') → σ' = σ.
Proof.
  unfold Store.__init__, Store._validate_config, Store.get_environ,
    Store.logger, Store.raise, mbind, mret, Store.M_bind, Store.M_ret.
  cbn zeta. set (self := read_environ (Store.environ σ)).
  destruct (ssh_enabled self); cbn [negb fst snd]; [|done].
  destruct (Py.truthy (ssh_user self)); cbn [negb fst snd];
    [|by intros [= _ <-]].
  destruct (Py.truthy (ssh_host self)); cbn [negb fst snd];
    [|by intros [= _ <-]].
  by destruct (Py.truthy (ssh_key self) && _).
Qed.

Lemma init_ok_valid σ w σ' : __init__ σ = (Ok w, σ') → valid_config w.
Proof.
  intros H. pose proof (init_outcome expanduser path_exists σ) as Hout.
  rewrite H in Hout. cbn [fst] in Hout. cbn zeta in Hout.
  apply init_ok_read_environ in H as ->.
  set (self := read_environ (Store.environ σ)) in *.
  intros Hen. rewrite Hen in Hout. cbn [negb] in Hout.
  destruct (Py.truthy (ssh_user self)) eqn:Hu; [|done].
  destruct (Py.truthy (ssh_host self)) eqn:Hh; [|done].
  by split; apply truthy_true.
Qed.

(** X5.  A call of [get_ssh_wrapper] that raises changes nothing: the
    process is as before, no instance is cached, and the exception is
    the [ValueError] of a remote mode whose user or host is missing. *)
Theorem failed_access_no_effect (σ σ' : Store.process) (e : exn) :
  get_ssh_wrapper σ = (Raise e, σ') →
  σ' = σ
  ∧ Store._ssh_wrapper_instance σ' = None
  ∧ (∃ msg, e = ValueError msg)
  ∧ ssh_enabled (read_environ (Store.environ σ)) = true
  ∧ (ssh_user (read_environ (Store.environ σ)) = ""
     ∨ ssh_host (read_environ (Store.environ σ)) = "").
Proof.
  intros H.
  destruct (Store._ssh_wrapper_instance σ) as [r|] eqn:Hinst.
  { by rewrite (get_cached expanduser path_exists σ r Hinst) in H. }
  rewrite (get_uncached expanduser path_exists σ Hinst) in H.
  destruct (__init__ σ) as [[w|e'] σ1] eqn:Hinit; [done|].
  injection H as <- <-.
  apply init_raise_unchanged in Hinit as Heq. subst σ1.
  pose proof (init_outcome expanduser path_exists σ) as Hout.
  rewrite Hinit in Hout. cbn [fst] in Hout. cbn zeta in Hout.
  set (self := read_environ (Store.environ σ)) in *.
  destruct (ssh_enabled self); cbn [negb] in Hout; [|done].
  destruct (Py.truthy (ssh_user self)) eqn:Hu; cbn [negb] in Hout.
  - destruct (Py.truthy (ssh_host self)) eqn:Hh; cbn [negb] in Hout; [done|].
    apply truthy_false in Hh. injection Hout as ->. split_and!; eauto.
  - apply truthy_false in Hu. injection Hout as ->. split_and!; eauto.
Qed.

(** X6.  The key-file check is advisory.  Whether [__init__] succeeds
    does not depend on the file system or on home expansion.  In local
    mode the only log record is the debug notice, whatever the key is.
    In remote mode with user and host, the log gets the warning that
    names the key exactly when a key is set and its expanded path does
    not exist, and then the info record with [user@host:port]. *)
Theorem key_check_advisory (σ : Store.process) :
  let self := read_environ (Store.environ σ) in
  (∀ expanduser' path_exists',
     (Store.__init__ expanduser' path_exists' σ).1 = (__init__ σ).1)
  ∧ (ssh_enabled self = false →
     Store.log (__init__ σ).2
     = Store.log σ
       ++ [(Store.DEBUG, "SSH mode disabled - executing commands locally")])
  ∧ (ssh_enabled self = true → ssh_user self ≠ "" → ssh_host self ≠ "" →
     Store.log (__init__ σ).2
     = Store.log σ
       ++ (if decide (ssh_key self ≠ ""
                      ∧ path_exists (expanduser (ssh_key self)) = false)
           then [(Store.WARNING,
                  "SSH key file not found: " +:+ ssh_key self)]
           else [])
       ++ [(Store.INFO,
            "SSH mode enabled: " +:+ ssh_user self +:+ "@"
              +:+ ssh_host self +:+ ":" +:+ ssh_port self)]).
Proof.
  intros self. split_and!.
  - intros e' p'. by rewrite !init_outcome.
  - intros Hen.
    unfold Store.__init__, Store._validate_config, Store.get_environ,
      Store.logger, Store.raise, mbind, mret, Store.M_bind, Store.M_ret.
    cbn zeta. fold self. by rewrite Hen.
  - intros Hen Hu%truthy_true Hh%truthy_true.
    unfold Store.__init__, Store._validate_config, Store.get_environ,
      Store.logger, Store.raise, mbind, mret, Store.M_bind, Store.M_ret.
    cbn zeta. fold self. rewrite Hen, Hu, Hh. cbn [negb].
    destruct (Py.truthy (ssh_key self)) eqn:Hk; cbn [andb].
    + apply truthy_true in Hk.
      destruct (path_exists (expanduser (ssh_key self))) eqn:Hp; cbn [negb].
      * rewrite decide_False by (intros [_ ?]; done). done.
      * rewrite decide_True by done. cbn. by rewrite <- app_assoc.
    + apply truthy_false in Hk.
      rewrite decide_False by (by intros [? _]). done.
Qed.

(** *** The heap only grows *)

Lemma get_heap_persist σ x o :
  Store.heap σ !! x = Some o →
  Store.heap (get_ssh_wrapper σ).2 !! x = Some o.
Proof.
  intros Hx.
  destruct (Store._ssh_wrapper_instance σ) as [r|] eqn:Hinst.
  { by rewrite (get_cached expanduser path_exists σ r Hinst). }
  rewrite (get_uncached expanduser path_exists σ Hinst).
  pose proof (init_frame expanduser path_exists σ) as (_ & Hheap & _).
  destruct (__init__ σ) as [[w|e] σ1]; cbn [snd] in *.
  - cbn. rewrite Hheap. rewrite lookup_insert_ne; [done|].
    apply not_eq_sym. by eapply fresh_loc_ne.
  - by rewrite Hheap.
Qed.

Lemma run_heap_persist ops : ∀ σ x o,
  Store.heap σ !! x = Some o →
  Store.heap (run ops σ).2 !! x = Some o.
Proof.
  induction ops as [|op ops IH]; intros σ x o Hx; [done|].
  destruct op as [| |k v|k]; cbn [Store.run].
  - pose proof (get_heap_persist σ x o Hx) as Hget.
    destruct (get_ssh_wrapper σ) as [res σ1]. cbn [snd] in Hget.
    specialize (IH σ1 x o Hget).
    by destruct (Store.run expanduser path_exists ops σ1).
  - by apply IH.
  - by apply IH.
  - by apply IH.
Qed.

(** X7.  No call sequence of the accessor, the reset and environment
    changes removes or alters an object of the heap: an instance a
    caller got keeps its attributes, also after a reset. *)
Theorem heap_objects_persist (ops : list Store.op) (σ : Store.process)
    (x : positive) (o : Store.object) :
  Store.heap σ !! x = Some o →
  Store.heap (run ops σ).2 !! x = Some o.
Proof. apply run_heap_persist. Qed.

(** *** Every instance handed out is valid *)

Lemma get_cached_valid σ :
  cached_valid σ →
  cached_valid (get_ssh_wrapper σ).2
  ∧ ∀ r, (get_ssh_wrapper σ).1 = Ok r →
         ∃ w, Store.heap (get_ssh_wrapper σ).2 !! r
              = Some (Store.WrapperObj w) ∧ valid_config w.
Proof.
  intros Hcv.
  destruct (Store._ssh_wrapper_instance σ) as [r0|] eqn:Hinst.
  { rewrite (get_cached expanduser path_exists σ r0 Hinst). cbn [fst snd].
    split; [done|]. intros r [= <-]. by apply Hcv. }
  rewrite (get_uncached expanduser path_exists σ Hinst).
  destruct (__init__ σ) as [[w|e] σ1] eqn:Hinit; cbn [fst snd].
  - apply init_ok_valid in Hinit as Hvalid.
    split.
    + intros r. cbn. intros [= <-]. exists w.
      by rewrite lookup_insert_eq.
    + intros r [= <-]. exists w. cbn. by rewrite lookup_insert_eq.
  - apply init_raise_unchanged in Hinit as ->. by split.
Qed.

Lemma run_cached_valid ops : ∀ σ,
  cached_valid σ →
  cached_valid (run ops σ).2
  ∧ ∀ r, Ok r ∈ (run ops σ).1 →
         ∃ w, Store.heap (run ops σ).2 !! r = Some (Store.WrapperObj w)
              ∧ valid_config w.
Proof.
  induction ops as [|op ops IH]; intros σ Hcv.
  { split; [done|]. intros r Hin. by apply elem_of_nil in Hin. }
  destruct op as [| |k v|k]; cbn [Store.run].
  - destruct (get_cached_valid σ Hcv) as [Hcv1 Hres].
    pose proof (run_heap_persist ops (get_ssh_wrapper σ).2) as Hkeep.
    destruct (get_ssh_wrapper σ) as [res σ1]. cbn [fst snd] in *.
    destruct (IH σ1 Hcv1) as [Hcv2 Hrs].
    destruct (Store.run expanduser path_exists ops σ1) as [rs σ2].
    cbn [fst snd] in *. split; [done|].
    intros r [Heq|Hin]%elem_of_cons; [|by apply Hrs].
    destruct (Hres r (eq_sym Heq)) as (w & Hw & Hvalid).
    exists w. split; [by apply Hkeep | done].
  - apply IH. intros r. by cbn.
  - apply IH. intros r. cbn. apply Hcv.
  - apply IH. intros r. cbn. apply Hcv.
Qed.

(** X8.  The data-model invariant holds for every instance the accessor
    hands out: from a process whose cached instance, if any, is valid,
    after any sequence of calls, resets and environment changes, each
    reference a call returned is an instance of the heap that, when
    enabled, has a non-empty user and a non-empty host. *)
Theorem accessor_instances_valid (ops : list Store.op) (σ : Store.process)
    (r : positive) :
  cached_valid σ →
  Ok r ∈ (run ops σ).1 →
  ∃ w, Store.heap (run ops σ).2 !! r = Some (Store.WrapperObj w)
       ∧ (ssh_enabled w = true → ssh_user w ≠ "" ∧ ssh_host w ≠ "").
Proof.
  intros Hcv Hin. by apply (run_cached_valid ops σ Hcv).
Qed.

(** X9.  A change of the environment is not seen before a reset: once
    the accessor returned the instance [r] with attributes [w], after
    any calls and environment changes without a reset, getting the
    instance and wrapping a list gives the list computed from [w], with
    the home expansion in force at the time of wrapping.  Home expansion
    and the file system at the first call ([expanduser0],
    [path_exists0]) need not be those of the later calls: the
    environment holds HOME too. *)
Theorem environment_change_unseen (expanduser0 : string → string)
    (path_exists0 : string → bool) (σ σ1 : Store.process)
    (r cmd : positive) (w : SSHCommandWrapper) (l : list string)
    (ops : list Store.op) :
  Store.get_ssh_wrapper expanduser0 path_exists0 σ = (Ok r, σ1) →
  Store.heap σ1 !! r = Some (Store.WrapperObj w) →
  Store.heap σ1 !! cmd = Some (Store.ListObj l) →
  existsb Store.is_reset ops = false →
  ∃ out σ3,
    (get_ssh_wrapper ≫= λ self, Store.wrap_command expanduser self cmd)
      (run ops σ1).2 = (Ok out, σ3)
    ∧ Store.heap σ3 !! out
      = Some (Store.ListObj (wrap_command expanduser w l)).
Proof.
  intros Hget Hr Hcmd Hops.
  apply get_ok_cached in Hget.
  destruct (run_cached expanduser path_exists ops σ1 r Hget Hops)
    as (_ & Hheap & _ & Hinst).
  set (σ2 := (run ops σ1).2) in *.
  rewrite (bind_ok _ _ σ2 r σ2) by (by apply get_cached).
  rewrite <- Hheap in Hr, Hcmd.
  rewrite (wrap_command_run expanduser σ2 r cmd w l Hr Hcmd).
  destruct (ssh_enabled w) eqn:Hen; cbn zeta.
  - eexists _, _. split; [reflexivity|]. apply building_lookup.
  - exists cmd, σ2. split; [done|]. unfold wrap_command. by rewrite Hen.
Qed.

(** X10.  First use, end to end.  In a process without a cached
    instance, getting the instance and wrapping the list [cmd]: with a
    valid environment it returns a list holding what [wrap_command]
    computes from the attributes read from the environment, and [cmd]
    keeps its items; with remote mode asked for and user or host
    missing it raises [ValueError] and leaves the process as it was. *)
Theorem first_use (σ : Store.process) (cmd : positive) (l : list string) :
  Store._ssh_wrapper_instance σ = None →
  Store.heap σ !! cmd = Some (Store.ListObj l) →
  let w := read_environ (Store.environ σ) in
  ((ssh_enabled w = false ∨ (ssh_user w ≠ "" ∧ ssh_host w ≠ "")) →
   ∃ out σ',
     (get_ssh_wrapper ≫= λ self, Store.wrap_command expanduser self cmd) σ
     = (Ok out, σ')
     ∧ Store.heap σ' !! out
       = Some (Store.ListObj (wrap_command expanduser w l))
     ∧ Store.heap σ' !! cmd = Some (Store.ListObj l))
  ∧ (ssh_enabled w = true → (ssh_user w = "" ∨ ssh_host w = "") →
     ∃ msg,
       (get_ssh_wrapper ≫= λ self, Store.wrap_command expanduser self cmd) σ
       = (Raise (ValueError msg), σ)).
Proof.
  intros Hinst Hcmd w.
  pose proof (init_outcome expanduser path_exists σ) as Hout.
  pose proof (init_frame expanduser path_exists σ) as (_ & Hheap & _).
  cbn zeta in Hout. fold w in Hout.
  unfold mbind, Store.M_bind.
  rewrite (get_uncached expanduser path_exists σ Hinst).
  destruct (__init__ σ) as [[w'|e] σ1] eqn:Hinit; cbn [fst snd] in *.
  - assert (w' = w) as -> by (by apply init_ok_read_environ in Hinit).
    split.
    + intros _. cbn zeta.
      set (r := fresh (dom (Store.heap σ1))).
      set (σ2 := Store.Process _ _ _ _).
      assert (cmd ≠ r) as Hne
        by (eapply fresh_loc_ne; by rewrite Hheap).
      assert (Store.heap σ2 !! r = Some (Store.WrapperObj w)) as Hr
        by (cbn; by rewrite lookup_insert_eq).
      assert (Store.heap σ2 !! cmd = Some (Store.ListObj l)) as Hc
        by (cbn; by rewrite lookup_insert_ne, Hheap).
      rewrite (wrap_command_run expanduser σ2 r cmd w l Hr Hc).
      destruct (ssh_enabled w) eqn:Hen; cbn zeta.
      * eexists _, _. split; [reflexivity|].
        split; [apply building_lookup|].
        rewrite building_lookup_ne; [done|]. by eapply fresh_loc_ne.
      * exists cmd, σ2. split_and!; try done.
        unfold wrap_command. by rewrite Hen.
    + intros Hen [Hu|Hh]; exfalso; rewrite Hen in Hout; cbn [negb] in Hout.
      * apply truthy_false in Hu. by rewrite Hu in Hout.
      * apply truthy_false in Hh. rewrite Hh in Hout.
        by destruct (Py.truthy (ssh_user w)).
  - apply init_raise_unchanged in Hinit as Heq. subst σ1.
    split.
    + intros [Hen|[Hu%truthy_true Hh%truthy_true]]; exfalso.
      * by rewrite Hen in Hout.
      * rewrite Hu, Hh in Hout. by destruct (ssh_enabled w).
    + intros Hen _. rewrite Hen in Hout. cbn [negb] in Hout.
      destruct (Py.truthy (ssh_user w)); cbn [negb] in Hout;
        [destruct (Py.truthy (ssh_host w)); cbn [negb] in Hout; [done|]|];
        injection Hout as ->; eauto.
Qed.

(** X11.  What wrapping does to the process, for an instance [self] and
    a list [cmd] of the heap: the environment and the module global are
    never touched; in local mode nothing at all changes; in remote mode
    the log gets exactly one debug record, holding the wrapped command
    (its elements joined by blanks, or the wrapped string). *)
Theorem wrap_effects (σ : Store.process) (self cmd : positive)
    (w : SSHCommandWrapper) (l : list string) (s : string) :
  Store.heap σ !! self = Some (Store.WrapperObj w) →
  Store.heap σ !! cmd = Some (Store.ListObj l) →
  let σ1 := (Store.wrap_command expanduser self cmd σ).2 in
  let σ2 := (Store.wrap_shell_command expanduser self s σ).2 in
  Store.environ σ1 = Store.environ σ
  ∧ Store._ssh_wrapper_instance σ1 = Store._ssh_wrapper_instance σ
  ∧ Store.environ σ2 = Store.environ σ
  ∧ Store._ssh_wrapper_instance σ2 = Store._ssh_wrapper_instance σ
  ∧ (ssh_enabled w = false → σ1 = σ ∧ σ2 = σ)
  ∧ (ssh_enabled w = true →
     Store.log σ1
     = Store.log σ
       ++ [(Store.DEBUG, "Wrapped command: "
              +:+ Py.join " " (wrap_command expanduser w l))]
     ∧ Store.log σ2
       = Store.log σ
         ++ [(Store.DEBUG, "Wrapped shell command: "
                +:+ wrap_shell_command expanduser w s)]).
Proof.
  intros Hself Hcmd. cbn zeta.
  rewrite (wrap_command_run expanduser σ self cmd w l Hself Hcmd).
  rewrite (wrap_shell_command_run expanduser σ self s w Hself).
  destruct (ssh_enabled w); cbn zeta; unfold building;
    cbn [fst snd Store.environ Store.log Store._ssh_wrapper_instance];
    split_and!; done.
Qed.

(** X12.  Defaults add no flags: when the environment sets neither
    [KUBECTL_SSH_PORT] nor [KUBECTL_SSH_KEY] and asks for remote mode,
    the list built from the attributes read from it has no port pair
    and no key pair. *)
Theorem defaults_add_no_flags (environ : gmap string string)
    (cmd : list string) :
  environ !! "KUBECTL_SSH_PORT" = None →
  environ !! "KUBECTL_SSH_KEY" = None →
  ssh_enabled (read_environ environ) = true →
  wrap_command expanduser (read_environ environ) cmd
  = ["ssh"; "-o"; "StrictHostKeyChecking=no";
     "-o"; "UserKnownHostsFile=/dev/null"; "-o"; "LogLevel=ERROR";
     environ_get environ "KUBECTL_SSH_USER" ""
       +:+ "@" +:+ environ_get environ "KUBECTL_SSH_HOST" "";
     Py.join " " (map shlex.quote cmd)].
Proof.
  intros Hport Hkey Hen.
  assert (ssh_port (read_environ environ) = "22") as Hp
    by (cbn; unfold environ_get; by rewrite Hport).
  assert (ssh_key (read_environ environ) = "") as Hk
    by (cbn; unfold environ_get; by rewrite Hkey).
  unfold wrap_command. rewrite Hen, Hp, Hk. reflexivity.
Qed.

End Lifecycle.

(** ** The further theorems at sample inputs *)

Lemma shell_form_round_trip_witness :
  ssh_enabled alice_022 = true
  ∧ plain (ssh_port alice_022) = true
  ∧ plain (ssh_user alice_022) = true
  ∧ plain (ssh_host alice_022) = true
  ∧ shlex.split
      (wrap_shell_command expanduser_alice alice_022
         "kubectl get pods | grep 'my pod'")
    = Some (Ok ["ssh"; "-p"; "022"; "-i"; "/home/alice/.ssh/id_rsa";
                "-o"; "StrictHostKeyChecking=no";
                "-o"; "UserKnownHostsFile=/dev/null"; "-o"; "LogLevel=ERROR";
                "alice@10.0.0.5"; "kubectl get pods | grep 'my pod'"]).
Proof.
  do 4 (split; [reflexivity|]).
  exact (shell_form_round_trip expanduser_alice alice_022
           "kubectl get pods | grep 'my pod'"
           eq_refl eq_refl eq_refl eq_refl).
Defined.


Lemma shell_form_agrees_with_list_form_witness :
  ssh_enabled alice_022 = true
  ∧ plain (ssh_port alice_022) = true
  ∧ plain (ssh_user alice_022) = true
  ∧ plain (ssh_host alice_022) = true
  ∧ shlex.split
      (wrap_shell_command expanduser_alice alice_022
         (Py.join " " (map shlex.quote ["kubectl"; "logs"; "my pod"])))
    = Some (Ok (wrap_command expanduser_alice alice_022
                  ["kubectl"; "logs"; "my pod"])).
Proof.
  do 4 (split; [reflexivity|]).
  exact (shell_form_agrees_with_list_form expanduser_alice alice_022
           ["kubectl"; "logs"; "my pod"] eq_refl eq_refl eq_refl eq_refl).
Defined.

Lemma failed_access_no_effect_witness :
  Store.get_ssh_wrapper expanduser_alice every_path_exists broken_process
  = (Raise (ValueError
       "KUBECTL_SSH_USER environment variable is required when SSH mode is enabled"),
     broken_process)
  ∧ Store._ssh_wrapper_instance broken_process = None.
Proof.
  assert (Store.get_ssh_wrapper expanduser_alice every_path_exists
            broken_process
          = (Raise (ValueError
               "KUBECTL_SSH_USER environment variable is required when SSH mode is enabled"),
             broken_process)) as Hget
    by (vm_compute; reflexivity).
  split; [exact Hget|].
  exact (proj1 (proj2 (failed_access_no_effect expanduser_alice
                         every_path_exists broken_process broken_process
                         _ Hget))).
Defined.

Lemma heap_objects_persist_witness :
  Store.heap sample_heap_process !! 1%positive
  = Some (Store.WrapperObj alice_022)
  ∧ Store.heap
      (Store.run expanduser_alice every_path_exists
         [Store.Get; Store.Reset; Store.PutEnv "KUBECTL_SSH_PORT" "2222";
          Store.Get]
         sample_heap_process).2 !! 1%positive
    = Some (Store.WrapperObj alice_022).
Proof.
  split; [reflexivity|].
  exact (heap_objects_persist expanduser_alice every_path_exists
           [Store.Get; Store.Reset; Store.PutEnv "KUBECTL_SSH_PORT" "2222";
            Store.Get]
           sample_heap_process 1%positive (Store.WrapperObj alice_022)
           eq_refl).
Defined.

Lemma accessor_instances_valid_witness :
  cached_valid sample_process
  ∧ ∃ w,
      Store.heap
        (Store.run expanduser_alice every_path_exists
           [Store.Get; Store.Reset; Store.Get] sample_process).2
        !! 2%positive
      = Some (Store.WrapperObj w)
      ∧ (ssh_enabled w = true → ssh_user w ≠ "" ∧ ssh_host w ≠ "").
Proof.
  assert (cached_valid sample_process) as Hcv
    by (intros r Hr; discriminate Hr).
  split; [exact Hcv|].
  apply (accessor_instances_valid expanduser_alice every_path_exists
           [Store.Get; Store.Reset; Store.Get] sample_process 2%positive Hcv).
  apply list_elem_of_In. vm_compute. right. left. reflexivity.
Defined.

Lemma environment_change_unseen_witness :
  Store.get_ssh_wrapper expanduser_alice every_path_exists sample_heap_process
  = (Ok 1%positive, sample_heap_process)
  ∧ ∃ out σ3,
      (Store.get_ssh_wrapper expanduser_elsewhere every_path_exists
         ≫= λ self, Store.wrap_command expanduser_elsewhere self 2%positive)
        (Store.run expanduser_elsewhere every_path_exists
           [Store.PutEnv "HOME" "/elsewhere";
            Store.PutEnv "KUBECTL_SSH_HOST" "other.example";
            Store.PutEnv "KUBECTL_SSH_PORT" "2222"; Store.Get]
           sample_heap_process).2
      = (Ok out, σ3)
      ∧ Store.heap σ3 !! out
        = Some (Store.ListObj
                  ["ssh"; "-p"; "022"; "-i"; "/elsewhere/.ssh/id_rsa";
                   "-o"; "StrictHostKeyChecking=no";
                   "-o"; "UserKnownHostsFile=/dev/null";
                   "-o"; "LogLevel=ERROR";
                   "alice@10.0.0.5"; "kubectl get pods"]).
Proof.
  split; [reflexivity|].
  exact (environment_change_unseen expanduser_elsewhere every_path_exists
           expanduser_alice every_path_exists
           sample_heap_process sample_heap_process 1%positive 2%positive
           alice_022 ["kubectl"; "get"; "pods"]
           [Store.PutEnv "HOME" "/elsewhere";
            Store.PutEnv "KUBECTL_SSH_HOST" "other.example";
            Store.PutEnv "KUBECTL_SSH_PORT" "2222"; Store.Get]
           eq_refl eq_refl eq_refl eq_refl).
Defined.

Lemma first_use_witness :
  Store._ssh_wrapper_instance broken_process = None
  ∧ Store.heap broken_process !! 2%positive
    = Some (Store.ListObj ["kubectl"; "get"; "pods"])
  ∧ ∃ msg,
      (Store.get_ssh_wrapper expanduser_alice every_path_exists
         ≫= λ self, Store.wrap_command expanduser_alice self 2%positive)
        broken_process
      = (Raise (ValueError msg), broken_process).
Proof.
  split; [reflexivity|]. split; [reflexivity|].
  exact (proj2 (first_use expanduser_alice every_path_exists broken_process
                  2%positive ["kubectl"; "get"; "pods"] eq_refl eq_refl)
           eq_refl (or_introl eq_refl)).
Defined.

Lemma wrap_effects_witness :
  Store.heap sample_heap_process !! 1%positive
  = Some (Store.WrapperObj alice_022)
  ∧ Store.heap sample_heap_process !! 2%positive
    = Some (Store.ListObj ["kubectl"; "get"; "pods"])
  ∧ Store.environ
      (Store.wrap_command expanduser_alice 1%positive 2%positive
         sample_heap_process).2
    = Store.environ sample_heap_process.
Proof.
  split; [reflexivity|]. split; [reflexivity|].
  exact (proj1 (wrap_effects expanduser_alice sample_heap_process
                  1%positive 2%positive alice_022
                  ["kubectl"; "get"; "pods"] "ls" eq_refl eq_refl)).
Defined.

Lemma defaults_add_no_flags_witness :
  sample_environ !! "KUBECTL_SSH_PORT" = None
  ∧ sample_environ !! "KUBECTL_SSH_KEY" = None
  ∧ ssh_enabled (read_environ sample_environ) = true
  ∧ wrap_command expanduser_alice (read_environ sample_environ) ["ls"; "-l"]
    = ["ssh"; "-o"; "StrictHostKeyChecking=no";
       "-o"; "UserKnownHostsFile=/dev/null"; "-o"; "LogLevel=ERROR";
       "alice@10.0.0.5"; "ls -l"].
Proof.
  do 3 (split; [reflexivity|]).
  exact (defaults_add_no_flags expanduser_alice sample_environ ["ls"; "-l"]
           eq_refl eq_refl eq_refl).
Defined.
